(** * network-topologer: traceroute engine and topology aggregation

    A shallow embedding of [traceroute.py], [network_topologer.py] and
    [exceptions.py].

    Modelling conventions.
    - Python [int] is [Z]; Python [float] is the kernel's binary64 [float];
      [bytes] is [list byte]; [str] is [string]; [None] is [None].
    - A call that may raise returns an [outcome]: [Returned v] or [Raised e].
    - The unbounded [while True] of [Traceroute.run] takes fuel; running out
      of fuel is [None] and stands for a trace that has not finished yet.
    - The network is an explicit argument: what name resolution, socket
      creation, every send and every wait on the raw socket produce.
    - A [dict] that is iterated is a list of items in insertion order; the
      derived graphs, which are only compared as mappings, are [gmap]s. *)

From Stdlib Require Import ZArith Floats.
From Stdlib.Strings Require Import Byte.
From stdpp Require Import gmap strings list sorting pretty.

Local Open Scope Z_scope.

(** ** exceptions.py *)

Module Exceptions.

(** The exception classes of [exceptions.py], and the built-in ones the
    modelled code can let through. *)
Inductive exn : Type :=
  | TracerouteError             (* base class *)
  | DNSResolveError             (* subclass of TracerouteError *)
  | TraceroutePermissionError   (* subclass of TracerouteError *)
  | OSError                     (* built-in, not a TracerouteError *)
  | IndexError                  (* built-in *)
  | StructError                 (* struct.error *)
  | ValueError.                 (* built-in *)

(** [isinstance(e, TracerouteError)]: what [except TracerouteError] catches. *)
Definition is_TracerouteError (e : exn) : bool :=
  match e with
  | TracerouteError | DNSResolveError | TraceroutePermissionError => true
  | _ => false
  end.

End Exceptions.
Export Exceptions.

(** ** Results of calls that may raise *)

Inductive outcome (A : Type) : Type :=
  | Returned (a : A)
  | Raised (e : exn).
Arguments Returned {A} a.
Arguments Raised {A} e.

(** Sequencing: an exception raised by the first call propagates. *)
#[global] Instance outcome_ret : MRet outcome := fun A a => Returned a.
#[global] Instance outcome_bind : MBind outcome := fun A B k c =>
  match c with
  | Returned a => k a
  | Raised e => Raised e
  end.

(** ** Python values used by the code *)

(** [len(l)] *)
Definition len {A : Type} (l : list A) : Z := Z.of_nat (length l).

(** [l[i]]: a negative index counts from the end, [IndexError] out of range. *)
Definition getitem {A : Type} (l : list A) (i : Z) : outcome A :=
  let j := if i <? 0 then len l + i else i in
  if j <? 0 then Raised IndexError
  else match l !! Z.to_nat j with
       | Some x => Returned x
       | None => Raised IndexError
       end.

(** [l[lo:hi]] for [0 <= lo <= hi]: clipped to the length, never raises. *)
Definition slice {A : Type} (l : list A) (lo hi : Z) : list A :=
  take (Z.to_nat (hi - lo)) (drop (Z.to_nat lo) l).

(** [range(n)] *)
Definition range (n : Z) : list Z := Z.of_nat <$> seq 0 (Z.to_nat n).

(** [for x in xs: body], threading the state the body updates. *)
Fixpoint for_each {A S : Type} (xs : list A) (body : S -> A -> outcome S) (s : S)
  : outcome S :=
  match xs with
  | [] => Returned s
  | x :: xs' => s' ← body s x; for_each xs' body s'
  end.

(** The integer value of one element of a [bytes] object. *)
Definition byte_val (b : byte) : Z := Z.of_N (Byte.to_N b).

(** [struct.unpack("!BBH", b)]: two unsigned bytes and one big-endian
    unsigned 16-bit integer; [struct.error] unless [b] has exactly 4 bytes. *)
Definition struct_unpack_BBH (b : list byte) : outcome (Z * Z * Z) :=
  match b with
  | [b0; b1; b2; b3] =>
      Returned (byte_val b0, byte_val b1, byte_val b2 * 256 + byte_val b3)
  | _ => Raised StructError
  end.

(** Truth value of a [float]: false exactly for [0.0] and [-0.0]. *)
Definition truthy (x : float) : bool := negb (PrimFloat.eqb x 0%float).

(** A hop [(ttl, ip_or_None, rtt_ms)]. *)
Definition hop : Type := Z * option string * option float.

Definition hop_ttl (h : hop) : Z := h.1.1.
Definition hop_ip (h : hop) : option string := h.1.2.
Definition hop_rtt (h : hop) : option float := h.2.

(** A [dict] with [str] keys: its items in insertion order. *)
Definition dict (V : Type) : Type := list (string * V).

(** [d[k] = v]: an existing key keeps its place, a new key goes last. *)
Fixpoint dict_setitem {V : Type} (d : dict V) (k : string) (v : V) : dict V :=
  match d with
  | [] => [(k, v)]
  | (k', v') :: d' =>
      if decide (k' = k) then (k, v) :: d' else (k', v') :: dict_setitem d' k v
  end.

(** [d.get(k)] *)
Fixpoint dict_get {V : Type} (d : dict V) (k : string) : option V :=
  match d with
  | [] => None
  | (k', v') :: d' => if decide (k' = k) then Some v' else dict_get d' k
  end.

(** [list(d.keys())] *)
Definition dict_keys {V : Type} (d : dict V) : list string := d.*1.

(** ** The network, as one trace sees it *)

(** What [recvfrom] does once [select] reports the raw socket readable. *)
Inductive recv_event : Type :=
  | Datagram (data : list byte) (curr_addr : string) (recv_time : float)
  | SocketError.

(** One turn of the wait loop: the clock read at its top, and what [select]
    reports within the time left ([None]: nothing readable). *)
Record wait_iter : Type := {
  now : float;
  readable : option recv_event
}.

(** One probe: whether [setsockopt] and [sendto] succeed, the clock when the
    wait starts, and the turns of the wait loop while datagrams keep
    arriving; after the last one nothing more becomes readable. *)
Record probe_net : Type := {
  setsockopt_ok : bool;
  sendto_ok : string -> Z -> bool;
  recv_start : float;
  arrivals : list wait_iter
}.

Inductive socket_result : Type :=
  | SocketOk
  | SocketPermissionError
  | SocketOSError.

Record net : Type := {
  gethostbyname : string -> option string;   (* [None]: socket.gaierror *)
  raw_socket : socket_result;
  udp_socket_ok : bool;
  probe_at : Z -> probe_net                  (* by ttl *)
}.

(** ** traceroute.py *)

Module Traceroute.

Record t : Type := mk {
  timeout : float;   (* self.timeout = float(timeout) *)
  port : Z           (* self.port = int(port) *)
}.

(** [Traceroute._resolve]: the resolver either answers or fails with
    [socket.gaierror], the failure the code handles. A name the resolver
    refuses to encode (a [UnicodeError]) is outside this model. *)
Definition _resolve (n : net) (destination : string) : outcome string :=
  match gethostbyname n destination with
  | Some ip => Returned ip
  | None => Raised DNSResolveError
  end.

(** [Traceroute._create_sockets]: the raw socket first, then the UDP one.
    The timeout is taken to be one [settimeout] accepts; the [ValueError] of
    a negative timeout is outside this model. *)
Definition _create_sockets (n : net) : outcome unit :=
  match raw_socket n with
  | SocketPermissionError => Raised TraceroutePermissionError
  | SocketOSError => Raised OSError
  | SocketOk => if udp_socket_ok n then Returned () else Raised OSError
  end.

(** [Traceroute._parse_icmp_type] *)
Definition _parse_icmp_type (data : list byte) : outcome (option Z) :=
  if len data <? 20 then Returned None
  else
    b ← getitem data 0;
    let ver_ihl := byte_val b in
    let ihl := Z.land ver_ihl 0x0F * 4 in
    if len data <? ihl + 4 then Returned None
    else
      let icmp_header := slice data ihl (ihl + 4) in
      '(icmp_type, _, _) ← struct_unpack_BBH icmp_header;
      Returned (Some icmp_type).

(** [Traceroute._send_probe]: [setsockopt] is outside the [try]. The port
    is taken to be in range; the [OverflowError] of a port above 65535 is
    outside this model. *)
Definition _send_probe (p : probe_net) (dest_ip : string) (dest_port ttl : Z)
  : outcome unit :=
  if setsockopt_ok p then
    if sendto_ok p dest_ip dest_port then Returned ()
    else Raised TracerouteError
  else Raised OSError.

(** [icmp_type in (11, 3)] *)
Definition in_11_3 (icmp_type : option Z) : bool :=
  match icmp_type with
  | Some ty => (ty =? 11) || (ty =? 3)
  | None => false
  end.

(** The [(addr, icmp_type, rtt_ms)] triple of [_receive_reply]. *)
Definition reply : Type := option string * option Z * option float.

(** The [while True] of [_receive_reply], one [wait_iter] per turn. *)
Fixpoint receive_loop (timeout start : float) (st : reply)
    (script : list wait_iter) : outcome reply :=
  match script with
  | [] => Returned st                           (* if not r: break *)
  | it :: rest =>
      let time_left := (timeout - (now it - start))%float in
      if (time_left <=? 0)%float then Returned st
      else
        match readable it with
        | None => Returned st                   (* if not r: break *)
        | Some SocketError => Returned st       (* except socket.error: break *)
        | Some (Datagram data curr_addr recv_time) =>
            let addr := Some curr_addr in
            let rtt_ms := Some ((recv_time - start) * 1000)%float in
            icmp_type ← _parse_icmp_type data;
            if in_11_3 icmp_type then Returned (addr, icmp_type, rtt_ms)
            else receive_loop timeout start (addr, icmp_type, rtt_ms) rest
        end
  end.

(** [Traceroute._receive_reply] *)
Definition _receive_reply (p : probe_net) (timeout : float) : outcome reply :=
  receive_loop timeout (recv_start p) (None, None, None) (arrivals p).

(** The [while True] of [Traceroute.run]. *)
Fixpoint probe_loop (fuel : nat) (self : t) (n : net) (dest_ip : string)
    (base_port ttl : Z) (hops : list hop) : option (outcome (list hop)) :=
  match fuel with
  | O => None
  | S fuel' =>
      let dest_port := base_port + ttl in
      match _send_probe (probe_at n ttl) dest_ip dest_port ttl with
      | Raised e => Some (Raised e)
      | Returned _ =>
          match _receive_reply (probe_at n ttl) (timeout self) with
          | Raised e => Some (Raised e)
          | Returned (None, _, _) =>
              probe_loop fuel' self n dest_ip base_port (ttl + 1)
                         (hops ++ [(ttl, None, None)])
          | Returned (Some addr, icmp_type, rtt_ms) =>
              let hops := hops ++ [(ttl, Some addr, rtt_ms)] in
              if bool_decide (addr = dest_ip)
                 || match icmp_type with Some ty => ty =? 3 | None => false end
              then Some (Returned hops)
              else probe_loop fuel' self n dest_ip base_port (ttl + 1) hops
          end
      end
  end.

(** [Traceroute.run]. The [finally] block only closes the two sockets and
    swallows what closing raises, so it changes no result. *)
Definition run (fuel : nat) (self : t) (n : net) (destination : string)
  : option (outcome (list hop)) :=
  match _resolve n destination with
  | Raised e => Some (Raised e)
  | Returned dest_ip =>
      match _create_sockets n with
      | Raised e => Some (Raised e)
      | Returned _ => probe_loop fuel self n dest_ip (port self) 1 []
      end
  end.

End Traceroute.

(** ** network_topologer.py *)

Module NetworkTopologer.

(** [timeout] is kept as the float that [Traceroute.__init__] makes of it. *)
Record t : Type := mk {
  timeout : float;
  port : Z;
  results : dict (list hop)
}.

(** [NetworkTopologer(timeout, port)] *)
Definition init (timeout : float) (port : Z) : t := mk timeout port [].

Definition set_results (self : t) (r : dict (list hop)) : t :=
  mk (timeout self) (port self) r.

(** [self.results[dest] = hops] *)
Definition store (self : t) (dest : string) (hops : list hop) : t :=
  set_results self (dict_setitem (results self) dest hops).

(** [NetworkTopologer.run]: the network of each trace is given by
    destination. The result is the instance after the call and what the
    call returned or raised. *)
Fixpoint run (fuel : nat) (w : string -> net) (self : t)
    (destinations : list string) : option (t * outcome (dict (list hop))) :=
  match destinations with
  | [] => Some (self, Returned (results self))
  | dest :: rest =>
      let tracer := Traceroute.mk (timeout self) (port self) in
      match Traceroute.run fuel tracer (w dest) dest with
      | None => None
      | Some (Raised e) =>
          if is_TracerouteError e then run fuel w (store self dest []) rest
          else Some (self, Raised e)
      | Some (Returned hops) => run fuel w (store self dest hops) rest
      end
  end.

(** The [_worker] closure of [run_parallel]. *)
Definition _worker (fuel : nat) (w : string -> net) (self : t) (dest : string)
  : option (outcome (string * list hop)) :=
  let tracer := Traceroute.mk (timeout self) (port self) in
  match Traceroute.run fuel tracer (w dest) dest with
  | None => None
  | Some (Raised e) =>
      if is_TracerouteError e then Some (Returned (dest, [])) else Some (Raised e)
  | Some (Returned hops) => Some (Returned (dest, hops))
  end.

(** [for fut in as_completed(futures): dest, hops = fut.result(); ...] *)
Fixpoint collect (self : t) (done : list (outcome (string * list hop)))
  : t * outcome (dict (list hop)) :=
  match done with
  | [] => (self, Returned (results self))
  | Returned (dest, hops) :: rest => collect (store self dest hops) rest
  | Raised e :: _ => (self, Raised e)
  end.

(** [NetworkTopologer.run_parallel]. [order] is the order in which the
    futures complete, some arrangement of [destinations]; the executor
    waits for every worker before the call ends. *)
Definition run_parallel (fuel : nat) (w : string -> net) (self : t)
    (destinations : list string) (workers : option Z) (order : list string)
  : option (t * outcome (dict (list hop))) :=
  let self := set_results self [] in
  let max_workers :=
    match workers with
    | Some n => if n =? 0 then
                  (if bool_decide (destinations = []) then 1
                   else Z.min (len destinations) 32)
                else n
    | None => if bool_decide (destinations = []) then 1
              else Z.min (len destinations) 32
    end in
  if max_workers <=? 0 then Some (self, Raised ValueError)
  else
    match mapM (_worker fuel w self) order with
    | None => None
    | Some done => Some (collect self done)
    end.

(** [adjacency.setdefault(a, set()).add(b)] *)
Definition add_successor (adjacency : gmap string (gset string)) (a b : string)
  : gmap string (gset string) :=
  <[a := default ∅ (adjacency !! a) ∪ {[b]}]> adjacency.

(** [NetworkTopologer.build_adjacency] *)
Definition build_adjacency (self : t) (results_arg : option (dict (list hop)))
  : outcome (gmap string (gset string)) :=
  let results := default (results self) results_arg in
  for_each results (fun adjacency '(_, hops) =>
    let ips := omap hop_ip hops in
    for_each (range (len ips - 1)) (fun adjacency i =>
      a ← getitem ips i;
      b ← getitem ips (i + 1);
      Returned (add_successor adjacency a b)) adjacency) ∅.

(** [edge_latencies.setdefault(edge, []).append(delta_ms)] *)
Definition add_sample (edge_latencies : gmap (string * string) (list float))
    (edge : string * string) (delta_ms : float)
  : gmap (string * string) (list float) :=
  <[edge := default [] (edge_latencies !! edge) ++ [delta_ms]]> edge_latencies.

(** The [(ip, rtt)] of a hop that has both. *)
Definition ip_rtt (h : hop) : option (string * float) :=
  match hop_ip h, hop_rtt h with
  | Some ip, Some rtt => Some (ip, rtt)
  | _, _ => None
  end.

(** [NetworkTopologer.build_adjacency_with_latency] *)
Definition build_adjacency_with_latency (self : t)
    (results_arg : option (dict (list hop)))
  : outcome (gmap (string * string) (list float)) :=
  let results := default (results self) results_arg in
  for_each results (fun edge_latencies '(_, hops) =>
    let ip_rtt_pairs := omap ip_rtt hops in
    for_each (range (len ip_rtt_pairs - 1)) (fun edge_latencies i =>
      '(src_ip, src_rtt) ← getitem ip_rtt_pairs i;
      '(dst_ip, dst_rtt) ← getitem ip_rtt_pairs (i + 1);
      let delta_ms :=
        if truthy dst_rtt && truthy src_rtt then (dst_rtt - src_rtt)%float
        else dst_rtt in
      if truthy delta_ms && (0 <? delta_ms)%float then
        Returned (add_sample edge_latencies (src_ip, dst_ip) delta_ms)
      else Returned edge_latencies) edge_latencies) ∅.

End NetworkTopologer.

(** ** The derivations as the specification words them *)

(** The header length that [_parse_icmp_type] reads from the first byte
    ([0] for the empty input, which is rejected on its length anyway). *)
Definition header_len (data : list byte) : Z :=
  match data with
  | b :: _ => Z.land (byte_val b) 0x0F * 4
  | [] => 0
  end.

(** Each element paired with the next one. *)
Definition consecutive {A : Type} (l : list A) : list (A * A) := zip l (tail l).

(** The subsequence of present addresses of a hop list. *)
Definition present_addresses (hops : list hop) : list string := omap hop_ip hops.

(** derive_adjacency: per hop list, an edge from each present address to the
    next present one, collected in sets. *)
Definition derive_adjacency (result_set : dict (list hop))
  : gmap string (gset string) :=
  foldl (fun g '(_, hops) =>
           foldl (fun g '(a, b) => NetworkTopologer.add_successor g a b)
                 g (consecutive (present_addresses hops)))
        ∅ result_set.

(** The subsequence of hops with both an address and a round-trip time. *)
Definition timed_hops (hops : list hop) : list (string * float) :=
  omap NetworkTopologer.ip_rtt hops.

(** derive_edge_latency: per consecutive pair of timed hops,
    [delta = next.rtt - current.rtt], kept when [delta > 0]. *)
Definition derive_edge_latency (result_set : dict (list hop))
  : gmap (string * string) (list float) :=
  foldl (fun m '(_, hops) =>
           foldl (fun m '((a, ra), (b, rb)) =>
                    let delta := (rb - ra)%float in
                    if (0 <? delta)%float
                    then NetworkTopologer.add_sample m (a, b) delta
                    else m)
                 m (consecutive (timed_hops hops)))
        ∅ result_set.

(** A round-trip time of the data model: a non-negative float. *)
Definition rtt_nonneg (h : hop) : Prop :=
  match hop_rtt h with
  | Some r => (0 <=? r)%float = true
  | None => True
  end.

(** The turn [it] starts before the timeout has elapsed. *)
Definition in_time (timeout start : float) (it : wait_iter) : Prop :=
  ((timeout - (now it - start)) <=? 0)%float = false.

(** The round-trip time [_receive_reply] records for a datagram. *)
Definition rtt_of (start recv_time : float) : option float :=
  Some ((recv_time - start) * 1000)%float.

(** An IPv4 datagram with a 20-byte header (first byte 0x45) that carries a
    control message of type [ty], code 0. *)
Definition icmp_datagram (ty : byte) : list byte :=
  x45 :: repeat x00 19 ++ [ty; x00; x00; x00].

(** A turn of the wait loop, a quarter of a second in, that reads [data]
    sent by [addr] at half a second. *)
Definition turn_with (data : list byte) (addr : string) : wait_iter :=
  {| now := 0.25%float; readable := Some (Datagram data addr 0.5%float) |}.

(** A probe whose wait sees exactly the given turns, from time 0. *)
Definition probe_seeing (turns : list wait_iter) : probe_net :=
  {| setsockopt_ok := true; sendto_ok := fun _ _ => true;
     recv_start := 0%float; arrivals := turns |}.

(** A network in which every name resolves to itself, the sockets open, the
    first probe is answered by a router (type 11), the second is lost and
    the third is answered by the destination 10.0.0.3 (type 3). *)
Definition three_hop_net : net :=
  {| gethostbyname := fun d => Some d;
     raw_socket := SocketOk;
     udp_socket_ok := true;
     probe_at := fun ttl =>
       if ttl =? 1 then probe_seeing [turn_with (icmp_datagram x0b) "10.0.0.1"]
       else if ttl =? 2 then probe_seeing []
       else probe_seeing [turn_with (icmp_datagram x03) "10.0.0.3"] |}.

(** The same network with a resolver that knows no name. *)
Definition unresolved_net : net :=
  {| gethostbyname := fun _ => None;
     raw_socket := raw_socket three_hop_net;
     udp_socket_ok := udp_socket_ok three_hop_net;
     probe_at := probe_at three_hop_net |}.

(** The same network with raw sockets denied by the OS. *)
Definition denied_net : net :=
  {| gethostbyname := gethostbyname three_hop_net;
     raw_socket := SocketPermissionError;
     udp_socket_ok := udp_socket_ok three_hop_net;
     probe_at := probe_at three_hop_net |}.

(** [Traceroute()] with the default arguments. *)
Definition default_tracer : Traceroute.t := Traceroute.mk 2 33434.

(** The hop list the three-hop network yields. *)
Definition three_hops : list hop :=
  [(1, Some "10.0.0.1", Some 500%float);
   (2, None, None);
   (3, Some "10.0.0.3", Some 500%float)].

(** The hop indices are exactly 1, 2, ..., N. *)
Definition ttls_1_to_N (hops : list hop) : Prop :=
  hop_ttl <$> hops = Z.of_nat <$> seq 1 (length hops).

(** ** What the orchestrator records for one destination *)

(** What the [try]/[except TracerouteError]/[else] of the orchestrator
    stores for the result of a trace; [None] when the exception is not
    caught. *)
Definition recorded (r : outcome (list hop)) : option (list hop) :=
  match r with
  | Returned hops => Some hops
  | Raised e => if is_TracerouteError e then Some [] else None
  end.

(** The entry of destination [d]: defined when its trace ends, within the
    fuel, with a hop list or with a [TracerouteError]. *)
Definition entry (fuel : nat) (w : string -> net) (timeout : float) (port : Z)
    (d : string) : option (list hop) :=
  Traceroute.run fuel (Traceroute.mk timeout port) (w d) d ≫= recorded.

(** [self.results[k] = f(k)] for each [k] of [ks], in order. *)
Definition store_all (f : string -> list hop) (acc : dict (list hop))
    (ks : list string) : dict (list hop) :=
  foldl (fun acc k => dict_setitem acc k (f k)) acc ks.



(** The name [nowhere.invalid] does not resolve, [locked.example] is traced
    without the privilege for raw sockets, every other destination sits
    behind the three-hop network. *)
Definition sample_world (d : string) : net :=
  if decide (d = "nowhere.invalid") then unresolved_net
  else if decide (d = "locked.example") then denied_net
  else three_hop_net.

(** [NetworkTopologer()] with the default arguments. *)
Definition fresh : NetworkTopologer.t := NetworkTopologer.init 2 33434.



(** The graph [g] has the directed edge from [a] to [b]. *)
Definition has_edge (g : gmap string (gset string)) (a b : string) : Prop :=
  exists succ, g !! a = Some succ /\ b ∈ succ.

(** ** Shapes of replies and hops *)

(** A reply triple as the wait loop builds it: the round-trip time is present
    exactly when the address is, a type only comes with an address, and a
    type is one byte. *)
Definition reply_wf (r : Traceroute.reply) : Prop :=
  (r.1.1 = None <-> r.2 = None)
  /\ (r.1.2 <> None -> r.1.1 <> None)
  /\ (forall ty, r.1.2 = Some ty -> 0 <= ty <= 255).

(** A hop that is either a timeout [(ttl, None, None)] or a reply with both
    an address and a round-trip time. *)
Definition hop_wf (h : hop) : Prop := hop_ip h = None <-> hop_rtt h = None.

(** The first turn of the wait reads a datagram before the timeout. *)
Definition first_turn_reads (timeout : float) (p : probe_net) : Prop :=
  exists it rest data a t,
    arrivals p = it :: rest
    /\ readable it = Some (Datagram data a t)
    /\ in_time timeout (recv_start p) it.

(** A network whose UDP socket cannot be created. *)
Definition broken_net : net :=
  {| gethostbyname := gethostbyname three_hop_net;
     raw_socket := SocketOk;
     udp_socket_ok := false;
     probe_at := probe_at three_hop_net |}.

(** [sample_world] with [broken.example] behind [broken_net]. *)
Definition faulty_world (d : string) : net :=
  if decide (d = "broken.example") then broken_net else sample_world d.




(** One turn of the inner loop of [build_adjacency_with_latency], on the
    pair of timed hops it reads. *)
Definition latency_turn (m : gmap (string * string) (list float))
    (p : (string * float) * (string * float))
  : gmap (string * string) (list float) :=
  let '((src_ip, src_rtt), (dst_ip, dst_rtt)) := p in
  let delta_ms :=
    if truthy dst_rtt && truthy src_rtt then (dst_rtt - src_rtt)%float
    else dst_rtt in
  if truthy delta_ms && (0 <? delta_ms)%float
  then NetworkTopologer.add_sample m (src_ip, dst_ip) delta_ms
  else m.

(** Every sample list of [m] is non-empty and holds positive numbers only. *)
Definition samples_positive (m : gmap (string * string) (list float)) : Prop :=
  forall e samples, m !! e = Some samples ->
    samples <> [] /\ Forall (fun x => (0 <? x)%float = true) samples.

(** No address of [g] has an empty successor set. *)
Definition no_empty_successors (g : gmap string (gset string)) : Prop :=
  forall a succ, g !! a = Some succ -> succ <> ∅.

(** The example hop list of the specification, with concrete addresses. *)
Definition example_hops : list hop :=
  [(1, Some "10.0.0.1", Some 10%float);
   (2, Some "10.0.0.2", Some 20%float);
   (3, Some "10.0.0.3", Some 30%float)].

(** ** network_topologer.py: the JSON view *)

(** The order of [str]: lexicographic on the character codes. *)
Definition str_le (a b : string) : Prop := String.leb a b = true.

#[global] Instance str_le_dec (a b : string) : Decision (str_le a b) :=
  decide (String.leb a b = true).

(** [sorted(l)] on strings: the ascending arrangement of [l]. *)
Definition sorted (l : list string) : list string := merge_sort str_le l.

(** [NetworkTopologer.topology_dict]; [list(v)] lists the set in some
    order, which [sorted] then fixes. *)
Definition topology_dict (self : NetworkTopologer.t)
    (results_arg : option (dict (list hop)))
  : outcome (gmap string (list string)) :=
  adj ← NetworkTopologer.build_adjacency self results_arg;
  Returned ((fun v : gset string => sorted (elements v))
              <$> (adj : gmap string (gset string))).

(** ** visualization.py *)

(** [networkx.DiGraph] as far as [get_graph_stats] uses it: a set of nodes
    and a set of directed edges; [add_edge] adds the edge and both of its
    ends. *)
Module DiGraph.

Record t : Type := mk {
  nodes : gset string;
  edges : gset (string * string)
}.

Definition empty : t := mk ∅ ∅.

Definition add_edge (G : t) (u v : string) : t :=
  mk ({[u; v]} ∪ nodes G) ({[(u, v)]} ∪ edges G).

Definition number_of_nodes (G : t) : Z := Z.of_nat (size (nodes G)).
Definition number_of_edges (G : t) : Z := Z.of_nat (size (edges G)).

End DiGraph.

(** The [(src, dst)] pairs that
    [for src, destinations in adjacency.items(): for dst in destinations]
    visits. *)
Definition adjacency_pairs (adjacency : gmap string (gset string))
  : list (string * string) :=
  '(src, destinations) ← map_to_list adjacency;
  dst ← elements destinations;
  [(src, dst)].

(** The graph both methods of [TopologyVisualizer] build first. *)
Definition build_graph (adjacency : gmap string (gset string)) : DiGraph.t :=
  foldl (fun G '(src, dst) => DiGraph.add_edge G src dst) DiGraph.empty
        (adjacency_pairs adjacency).

(** The dictionary [get_graph_stats] returns. *)
Record graph_stats : Type := {
  stat_nodes : Z;
  stat_edges : Z;
  stat_sources : Z;
  stat_destinations : Z
}.

(** [TopologyVisualizer.get_graph_stats] *)
Definition get_graph_stats (adjacency : gmap string (gset string))
  : graph_stats :=
  let G := build_graph adjacency in
  {| stat_nodes := DiGraph.number_of_nodes G;
     stat_edges := DiGraph.number_of_edges G;
     stat_sources := Z.of_nat (size adjacency);
     stat_destinations :=
       Z.of_nat (size (list_to_set
                         (dsts ← (map_to_list adjacency).*2; elements dsts)
                       : gset string)) |}.

(** A graph with the single edge 10.0.0.1 -> 10.0.0.2. *)
Definition one_edge_graph : gmap string (gset string) :=
  {["10.0.0.1" := {["10.0.0.2"]}]}.

(** ** __main__.py: random destinations *)

(** [random.randint(a, b)]: an integer of [[a, b]], fixed by the next output
    [raw] of the generator. *)
Definition randint (a b raw : Z) : Z := a + raw mod (b - a + 1).

(** [f"{first}.{second}.{third}.{fourth}"] *)
Definition format_ip (first second third fourth : Z) : string :=
  pretty first +:+ "." +:+ pretty second +:+ "." +:+ pretty third
  +:+ "." +:+ pretty fourth.

(** The test that makes [generate_random_public_ips] drop a draw: a private,
    loopback or link-local range. *)
Definition is_reserved (first second : Z) : bool :=
  (first =? 10)
  || ((first =? 172) && (16 <=? second) && (second <=? 31))
  || ((first =? 192) && (second =? 168))
  || (first =? 127)
  || ((first =? 169) && (second =? 254)).

(** The [while] loop of [generate_random_public_ips]; [draws] are the
    outputs of the generator, four per turn, and running out of them is
    [None]: the loop has not finished yet. *)
Fixpoint generate_loop (count : Z) (public_ips : list string) (draws : list Z)
  {struct draws} : option (list string) :=
  if len public_ips <? count then
    match draws with
    | r1 :: r2 :: r3 :: r4 :: rest =>
        let first := randint 1 223 r1 in
        let second := randint 0 255 r2 in
        let third := randint 0 255 r3 in
        let fourth := randint 1 254 r4 in
        let ip := format_ip first second third fourth in
        if is_reserved first second then generate_loop count public_ips rest
        else generate_loop count (public_ips ++ [ip]) rest
    | _ => None
    end
  else Some public_ips.

(** [generate_random_public_ips] *)
Definition generate_random_public_ips (count : Z) (draws : list Z)
  : option (list string) :=
  generate_loop count [] draws.

(** A dotted quad outside the ranges the generator avoids. *)
Definition public_address (ip : string) : Prop :=
  exists a b c d,
    ip = format_ip a b c d
    /\ 1 <= a <= 223 /\ 0 <= b <= 255 /\ 0 <= c <= 255 /\ 1 <= d <= 254
    /\ a <> 10 /\ a <> 127
    /\ ~ (a = 172 /\ 16 <= b <= 31)
    /\ ~ (a = 192 /\ b = 168)
    /\ ~ (a = 169 /\ b = 254).

(** ** The edge-latency samples, stated on their own *)

(** The hops with both an address and a round-trip time, in order. *)
Fixpoint timed_subsequence (hops : list hop) : list (string * float) :=
  match hops with
  | [] => []
  | (_, Some ip, Some rtt) :: rest => (ip, rtt) :: timed_subsequence rest
  | _ :: rest => timed_subsequence rest
  end.

(** The rule of the specification: [delta = next.rtt - current.rtt]. *)
Definition rtt_difference (current next : float) : float :=
  (next - current)%float.

(** The rule of the code: the same difference, but [next.rtt] itself when
    either of the two times is zero. *)
Definition guarded_difference (current next : float) : float :=
  if (next =? 0)%float || (current =? 0)%float then next
  else (next - current)%float.

(** The samples one hop list gives the pair [e] under the rule [delta]: the
    positive deltas of the consecutive timed hops with these two addresses,
    in path order. *)
Definition path_samples (delta : float -> float -> float) (e : string * string)
    (hops : list hop) : list float :=
  p ← consecutive (timed_subsequence hops);
  if decide ((p.1.1, p.2.1) = e) then
    if (0 <? delta p.1.2 p.2.2)%float then [delta p.1.2 p.2.2] else []
  else [].

(** The samples of [e] over a whole result set, destination after
    destination. *)
Definition edge_samples (delta : float -> float -> float) (e : string * string)
    (rs : dict (list hop)) : list float :=
  item ← rs; path_samples delta e item.2.

(** The mapping [m] holds under every pair exactly its samples, in the order
    they were appended, and has no key for a pair without samples. *)
Definition holds_samples (m : gmap (string * string) (list float))
    (delta : float -> float -> float) (rs : dict (list hop)) : Prop :=
  forall e, m !! e = match edge_samples delta e rs with
                     | [] => None
                     | samples => Some samples
                     end.

(** A hop at -5.0 ms followed by a hop at 0.0 ms. *)
Definition negative_rtt_results : dict (list hop) :=
  [("example.com", [(1, Some "10.0.0.1", Some (-5)%float);
                    (2, Some "10.0.0.2", Some 0%float)])].

(** * Properties *)

Lemma byte_range (b : byte) : 0 <= byte_val b <= 255.
Proof.
  unfold byte_val. pose proof (Byte.to_N_bounded b) as Hb. lia.
Qed.

Lemma header_len_range (data : list byte) : 0 <= header_len data <= 60.
Proof.
  destruct data as [|b rest]; cbn [header_len]; [lia|].
  pose proof (byte_range b) as Hb.
  assert (0 <= Z.land (byte_val b) 15 <= 15); [|lia].
  split.
  - apply Z.land_nonneg. lia.
  - change 15 with (Z.ones 4) at 1. rewrite Z.land_ones by lia.
    change (2 ^ 4) with 16.
    pose proof (Z.mod_pos_bound (byte_val b) 16). lia.
Qed.

Lemma slice_four (data : list byte) (n : nat) :
  (n + 4 <= length data)%nat ->
  exists b0 b1 b2 b3,
    take 4 (drop n data) = [b0; b1; b2; b3] /\ data !! n = Some b0.
Proof.
  intros Hlen.
  assert (Hd : (4 <= length (drop n data))%nat) by (rewrite length_drop; lia).
  pose proof (lookup_drop data n 0) as H0.
  destruct (drop n data) as [|b0 [|b1 [|b2 [|b3 rest]]]]; simpl in Hd; try lia.
  exists b0, b1, b2, b3. split; [reflexivity|].
  rewrite Nat.add_0_r in H0. rewrite <- H0. reflexivity.
Qed.

(** What [_parse_icmp_type] computes, in one equation. *)
Lemma parse_icmp_type_eq (data : list byte) :
  Traceroute._parse_icmp_type data =
  Returned
    (if (len data <? 20) || (len data <? header_len data + 4) then None
     else byte_val <$> data !! Z.to_nat (header_len data)).
Proof.
  unfold Traceroute._parse_icmp_type.
  destruct (len data <? 20) eqn:Hs; [reflexivity|].
  apply Z.ltb_ge in Hs. cbn [orb].
  destruct data as [|b rest]; [unfold len in Hs; simpl in Hs; lia|].
  pose proof (header_len_range (b :: rest)) as Hr.
  change (getitem (b :: rest) 0) with (Returned b).
  cbn [mbind outcome_bind].
  change (Z.land (byte_val b) 15 * 4) with (header_len (b :: rest)).
  set (ihl := header_len (b :: rest)) in *.
  destruct (len (b :: rest) <? ihl + 4) eqn:Hi; [reflexivity|].
  apply Z.ltb_ge in Hi. unfold len in Hi.
  unfold slice. replace (ihl + 4 - ihl) with 4 by lia.
  destruct (slice_four (b :: rest) (Z.to_nat ihl))
    as (b0 & b1 & b2 & b3 & Ht & Hl); [lia|].
  change (Z.to_nat 4) with 4%nat. rewrite Ht, Hl. reflexivity.
Qed.

(** C10: for every byte string, [_parse_icmp_type] returns (it never
    raises); the result is absent exactly when the input is shorter than 20
    bytes or shorter than the encoded header length, (first byte & 0x0F) * 4,
    plus 4; otherwise it is the byte at the header-length offset, an integer
    between 0 and 255. *)
Theorem parse_icmp_type_total (data : list byte) :
  exists r,
    Traceroute._parse_icmp_type data = Returned r
    /\ (r = None <-> (len data < 20 \/ len data < header_len data + 4))
    /\ (forall ty, r = Some ty ->
          exists b, data !! Z.to_nat (header_len data) = Some b
                    /\ ty = byte_val b /\ 0 <= ty <= 255).
Proof.
  eexists. split; [apply parse_icmp_type_eq|].
  pose proof (header_len_range data) as Hr.
  destruct (len data <? 20) eqn:Hs; cbn [orb].
  { apply Z.ltb_lt in Hs. split; [tauto | discriminate]. }
  apply Z.ltb_ge in Hs.
  destruct (len data <? header_len data + 4) eqn:Hi.
  { apply Z.ltb_lt in Hi. split; [tauto | discriminate]. }
  apply Z.ltb_ge in Hi.
  destruct (lookup_lt_is_Some_2 data (Z.to_nat (header_len data))) as [b Hb].
  { unfold len in Hi. lia. }
  rewrite Hb. cbn [fmap option_fmap option_map]. split.
  - split; [discriminate | lia].
  - intros ty [= <-]. exists b. split; [reflexivity|].
    split; [reflexivity | apply byte_range].
Qed.

(** ** Waiting for a reply *)

(** A datagram turn whose type is 11 or 3 ends the wait with that datagram. *)
Lemma receive_loop_accept timeout start st it data a t rest ty :
  readable it = Some (Datagram data a t) ->
  in_time timeout start it ->
  Traceroute._parse_icmp_type data = Returned (Some ty) ->
  ty = 11 \/ ty = 3 ->
  Traceroute.receive_loop timeout start st (it :: rest)
  = Returned (Some a, Some ty, rtt_of start t).
Proof.
  intros Hr Ht Hp Hty. cbn [Traceroute.receive_loop].
  unfold in_time in Ht. rewrite Ht, Hr, Hp. cbn [mbind outcome_bind].
  destruct Hty as [-> | ->]; reflexivity.
Qed.

(** Any other datagram turn is skipped: the loop goes on with the rest. *)
Lemma receive_loop_skip timeout start st it data a t rest r :
  readable it = Some (Datagram data a t) ->
  in_time timeout start it ->
  Traceroute._parse_icmp_type data = Returned r ->
  Traceroute.in_11_3 r = false ->
  Traceroute.receive_loop timeout start st (it :: rest)
  = Traceroute.receive_loop timeout start (Some a, r, rtt_of start t) rest.
Proof.
  intros Hr Ht Hp Hty. cbn [Traceroute.receive_loop].
  unfold in_time in Ht. rewrite Ht, Hr, Hp. cbn [mbind outcome_bind].
  rewrite Hty. reflexivity.
Qed.

(** The wait never raises. *)
Lemma receive_loop_returns timeout start script :
  forall st, exists r, Traceroute.receive_loop timeout start st script = Returned r.
Proof.
  induction script as [|it rest IH]; intros st; cbn [Traceroute.receive_loop].
  - eauto.
  - destruct (_ <=? _)%float; [eauto|].
    destruct (readable it) as [[data a t|]|]; eauto.
    rewrite parse_icmp_type_eq. cbn [mbind outcome_bind].
    destruct (Traceroute.in_11_3 _); eauto.
Qed.

(** C7: the header length is the low nibble of the first byte times 4 and
    the type is the byte right after the header; a datagram of type 11 or 3
    ends the wait and is the reply; a datagram shorter than the minimum
    header, or of any other type, neither ends the wait nor raises: the loop
    goes on with the turns that follow, against the same start and timeout. *)
Theorem reply_classification timeout start st it data a t rest :
  readable it = Some (Datagram data a t) ->
  in_time timeout start it ->
  (exists r, Traceroute._parse_icmp_type data = Returned r)
  /\ (20 <= len data -> header_len data + 4 <= len data ->
        Traceroute._parse_icmp_type data
        = Returned (byte_val <$> data !! Z.to_nat (header_len data)))
  /\ (len data < 20 -> Traceroute._parse_icmp_type data = Returned None)
  /\ (forall ty, Traceroute._parse_icmp_type data = Returned (Some ty) ->
        ty = 11 \/ ty = 3 ->
        Traceroute.receive_loop timeout start st (it :: rest)
        = Returned (Some a, Some ty, rtt_of start t))
  /\ (forall r, Traceroute._parse_icmp_type data = Returned r ->
        r <> Some 11 -> r <> Some 3 ->
        Traceroute.receive_loop timeout start st (it :: rest)
        = Traceroute.receive_loop timeout start (Some a, r, rtt_of start t) rest).
Proof.
  intros Hr Ht. split; [eexists; apply parse_icmp_type_eq|]. repeat split.
  - intros H20 Hh. rewrite parse_icmp_type_eq.
    destruct (Z.ltb_spec (len data) 20); [lia|].
    destruct (Z.ltb_spec (len data) (header_len data + 4)); [lia|]. reflexivity.
  - intros H20. rewrite parse_icmp_type_eq.
    destruct (Z.ltb_spec (len data) 20); [reflexivity | lia].
  - intros ty Hp Hty. eapply receive_loop_accept; eauto.
  - intros r Hp H11 H3. eapply receive_loop_skip; eauto.
    destruct r as [ty|]; [|reflexivity]. cbn [Traceroute.in_11_3].
    destruct (Z.eqb_spec ty 11) as [->|]; [congruence|].
    destruct (Z.eqb_spec ty 3) as [->|]; [congruence|]. reflexivity.
Qed.

Lemma reply_classification_witness :
  Traceroute.receive_loop 2 0 (None, None, None)
    [turn_with (icmp_datagram x0b) "10.0.0.1"; turn_with [] "10.0.0.2"]
  = Returned (Some "10.0.0.1", Some 11, rtt_of 0 0.5)
  /\ Traceroute.receive_loop 2 0 (None, None, None)
       [turn_with (icmp_datagram x08) "10.0.0.1"; turn_with [] "10.0.0.2"]
     = Traceroute.receive_loop 2 0 (Some "10.0.0.1", Some 8, rtt_of 0 0.5)
         [turn_with [] "10.0.0.2"].
Proof.
  split.
  - apply (reply_classification 2 0 (None, None, None)
             (turn_with (icmp_datagram x0b) "10.0.0.1")
             (icmp_datagram x0b) "10.0.0.1" 0.5 [turn_with [] "10.0.0.2"]
             eq_refl eq_refl); [reflexivity | left; reflexivity].
  - apply (reply_classification 2 0 (None, None, None)
             (turn_with (icmp_datagram x08) "10.0.0.1")
             (icmp_datagram x08) "10.0.0.1" 0.5 [turn_with [] "10.0.0.2"]
             eq_refl eq_refl); [reflexivity | discriminate | discriminate].
Defined.

(** ** What a wait that ends on the timeout returns *)

(** With nothing readable at all, the reply is the no-reply triple. *)
Lemma receive_reply_silence p timeout :
  arrivals p = [] ->
  Traceroute._receive_reply p timeout = Returned (None, None, None).
Proof.
  intros Ha. unfold Traceroute._receive_reply. by rewrite Ha.
Qed.

(** Once a datagram has been read, its sender stays in the reply: no later
    turn of the loop clears the address. *)
Lemma receive_loop_keeps_address timeout start script :
  forall st r,
    st.1.1 <> None ->
    Traceroute.receive_loop timeout start st script = Returned r ->
    r.1.1 <> None.
Proof.
  induction script as [|it rest IH]; intros st r Hst;
    cbn [Traceroute.receive_loop].
  - by intros [= <-].
  - destruct (_ <=? _)%float; [by intros [= <-]|].
    destruct (readable it) as [[data a t|]|]; try by intros [= <-].
    rewrite parse_icmp_type_eq. cbn [mbind outcome_bind].
    destruct (Traceroute.in_11_3 _); [by intros [= <-]|].
    by apply IH.
Qed.

(** So a wait whose first turn reads a datagram in time never returns the
    no-reply triple, whatever the type of that datagram. *)
Lemma receive_reply_after_datagram p timeout it rest data a t :
  arrivals p = it :: rest ->
  readable it = Some (Datagram data a t) ->
  in_time timeout (recv_start p) it ->
  Traceroute._receive_reply p timeout <> Returned (None, None, None).
Proof.
  intros Ha Hr Ht Hret. unfold Traceroute._receive_reply in Hret.
  rewrite Ha in Hret. cbn [Traceroute.receive_loop] in Hret.
  unfold in_time in Ht. rewrite Ht, Hr, parse_icmp_type_eq in Hret.
  cbn [mbind outcome_bind] in Hret.
  destruct (Traceroute.in_11_3 _); [done|].
  by apply receive_loop_keeps_address in Hret.
Qed.

(** C5, evaluated on the code: one datagram of type 0 (neither 3 nor 11)
    arrives and is skipped, then nothing more is readable until the timeout.
    [_receive_reply] returns the skipped datagram's sender, type and
    round-trip time, not the no-reply triple its docstring promises; the
    same happens for a datagram too short to parse. *)
Theorem receive_reply_reports_skipped_datagram :
  Traceroute._parse_icmp_type (icmp_datagram x00) = Returned (Some 0)
  /\ Traceroute._receive_reply
       (probe_seeing [turn_with (icmp_datagram x00) "10.0.0.9"]) 2
     = Returned (Some "10.0.0.9", Some 0, Some 500%float)
  /\ Traceroute._parse_icmp_type [x45; x00] = Returned None
  /\ Traceroute._receive_reply (probe_seeing [turn_with [x45; x00] "10.0.0.9"]) 2
     = Returned (Some "10.0.0.9", None, Some 500%float).
Proof.
  repeat split; vm_compute; reflexivity.
Qed.

(** ** One trace *)

Lemma ttls_snoc (hops : list hop) ip rtt :
  ttls_1_to_N hops ->
  ttls_1_to_N (hops ++ [(Z.of_nat (length hops) + 1, ip, rtt)]).
Proof.
  unfold ttls_1_to_N. intros IH.
  rewrite fmap_app, length_app, IH. cbn [length fmap list_fmap].
  rewrite Nat.add_1_r, seq_S, fmap_app. cbn [fmap list_fmap hop_ttl fst].
  do 3 f_equal. lia.
Qed.

(** The loop invariant of [Traceroute.run]: the hops recorded so far are
    numbered 1 .. ttl - 1. *)
Lemma probe_loop_ttls fuel self n dest_ip base_port :
  forall ttl hops res,
    ttls_1_to_N hops ->
    ttl = Z.of_nat (length hops) + 1 ->
    Traceroute.probe_loop fuel self n dest_ip base_port ttl hops
    = Some (Returned res) ->
    ttls_1_to_N res /\ res <> [].
Proof.
  induction fuel as [|fuel IH]; intros ttl hops res Hinv Httl Hrun;
    cbn [Traceroute.probe_loop] in Hrun; [discriminate|].
  destruct (Traceroute._send_probe _ _ _ _); [|discriminate].
  destruct (Traceroute._receive_reply _ _) as [[[[addr|] ty] rtt]|];
    [| |discriminate].
  - destruct (_ || _).
    + injection Hrun as <-. subst ttl. split; [by apply ttls_snoc|].
      by destruct hops.
    + eapply IH; [| |exact Hrun].
      * subst ttl. by apply ttls_snoc.
      * rewrite length_app. cbn [length]. lia.
  - eapply IH; [| |exact Hrun].
    + subst ttl. by apply ttls_snoc.
    + rewrite length_app. cbn [length]. lia.
Qed.

(** More fuel does not change the result of a trace that has finished. *)
Lemma probe_loop_fuel_mono fuel self n dest_ip base_port :
  forall ttl hops r extra,
    Traceroute.probe_loop fuel self n dest_ip base_port ttl hops = Some r ->
    Traceroute.probe_loop (fuel + extra) self n dest_ip base_port ttl hops
    = Some r.
Proof.
  induction fuel as [|fuel IH]; intros ttl hops r extra Hrun;
    cbn [Traceroute.probe_loop Nat.add] in *; [discriminate|].
  destruct (Traceroute._send_probe _ _ _ _); [|done].
  destruct (Traceroute._receive_reply _ _) as [[[[addr|] ty] rtt]|]; [| |done].
  - destruct (_ || _); [done|]. by apply IH.
  - by apply IH.
Qed.

(** C3: the hop list of every completed [Traceroute.run] is numbered
    exactly 1, 2, ..., N in order, whichever hops timed out and whenever the
    trace ended. *)
Theorem run_hop_indices fuel self n destination hops :
  Traceroute.run fuel self n destination = Some (Returned hops) ->
  ttls_1_to_N hops.
Proof.
  unfold Traceroute.run. intros Hrun.
  destruct (Traceroute._resolve n destination); [|discriminate].
  destruct (Traceroute._create_sockets n); [|discriminate].
  eapply probe_loop_ttls; [| |exact Hrun]; reflexivity.
Qed.

Lemma run_hop_indices_witness :
  Traceroute.run 5 default_tracer three_hop_net "10.0.0.3"
  = Some (Returned three_hops)
  /\ ttls_1_to_N three_hops.
Proof.
  split; [reflexivity|].
  apply (run_hop_indices 5 default_tracer three_hop_net "10.0.0.3").
  reflexivity.
Defined.

(** A completed trace has recorded at least one hop. *)
Lemma run_returns_nonempty fuel self n destination hops :
  Traceroute.run fuel self n destination = Some (Returned hops) -> hops <> [].
Proof.
  unfold Traceroute.run. intros Hrun.
  destruct (Traceroute._resolve n destination); [|discriminate].
  destruct (Traceroute._create_sockets n); [|discriminate].
  eapply probe_loop_ttls; [| |exact Hrun]; reflexivity.
Qed.

(** A failed name resolution makes [Traceroute.run] raise. *)
Lemma run_unresolved fuel self n destination :
  gethostbyname n destination = None ->
  Traceroute.run fuel self n destination = Some (Raised DNSResolveError).
Proof.
  intros Hr. unfold Traceroute.run, Traceroute._resolve. by rewrite Hr.
Qed.


(** ** Insertion-ordered dictionaries *)

Section dict.
Context {V : Type}.
Implicit Types (d : dict V) (k : string) (v : V).

Lemma dict_get_setitem_eq d k v : dict_get (dict_setitem d k v) k = Some v.
Proof.
  induction d as [|[k' v'] d IH]; cbn [dict_setitem dict_get].
  - by rewrite decide_True.
  - destruct (decide (k' = k)) as [->|Hne]; cbn [dict_get].
    + by rewrite decide_True.
    + by rewrite decide_False.
Qed.

Lemma dict_get_setitem_ne d k k' v :
  k <> k' -> dict_get (dict_setitem d k v) k' = dict_get d k'.
Proof.
  intros Hne. induction d as [|[k0 v0] d IH]; cbn [dict_setitem dict_get].
  - by rewrite decide_False.
  - destruct (decide (k0 = k)) as [->|Hk]; cbn [dict_get].
    + by rewrite !decide_False.
    + destruct (decide (k0 = k')); [done | apply IH].
Qed.

Lemma dict_keys_setitem d k v k' :
  k' ∈ dict_keys (dict_setitem d k v) <-> k' = k \/ k' ∈ dict_keys d.
Proof.
  unfold dict_keys.
  induction d as [|[k0 v0] d IH]; cbn [dict_setitem fmap list_fmap fst].
  - set_solver.
  - destruct (decide (k0 = k)) as [->|Hk]; cbn [fmap list_fmap fst].
    + set_solver.
    + rewrite !elem_of_cons, IH. tauto.
Qed.

Lemma dict_keys_setitem_NoDup d k v :
  NoDup (dict_keys d) -> NoDup (dict_keys (dict_setitem d k v)).
Proof.
  unfold dict_keys.
  induction d as [|[k0 v0] d IH]; cbn [dict_setitem fmap list_fmap fst].
  - intros _. apply NoDup_singleton.
  - destruct (decide (k0 = k)) as [->|Hk]; cbn [fmap list_fmap fst]; [done|].
    rewrite !NoDup_cons. intros [Hin Hnd]. split; [|by apply IH].
    intros Hin'. apply (dict_keys_setitem d k v k0) in Hin'.
    destruct Hin' as [->|]; done.
Qed.

Lemma dict_get_is_Some d k : is_Some (dict_get d k) <-> k ∈ dict_keys d.
Proof.
  unfold dict_keys.
  induction d as [|[k0 v0] d IH]; cbn [dict_get fmap list_fmap fst].
  - rewrite is_Some_alt. set_solver.
  - destruct (decide (k0 = k)) as [->|Hk].
    + split; [set_solver | eauto].
    + rewrite IH, elem_of_cons. naive_solver.
Qed.

End dict.

(** What [store_all] leaves under each key. *)
Lemma store_all_get f ks : forall acc k,
  dict_get (store_all f acc ks) k
  = if decide (k ∈ ks) then Some (f k) else dict_get acc k.
Proof.
  unfold store_all.
  induction ks as [|k0 ks IH]; intros acc k; cbn [foldl].
  - rewrite decide_False; [done | set_solver].
  - rewrite IH. destruct (decide (k ∈ ks)) as [Hin|Hnin].
    + rewrite decide_True; [done | set_solver].
    + destruct (decide (k0 = k)) as [->|Hne].
      * rewrite decide_True by set_solver. apply dict_get_setitem_eq.
      * rewrite decide_False by set_solver. by apply dict_get_setitem_ne.
Qed.

Lemma store_all_keys f ks : forall acc k,
  k ∈ dict_keys (store_all f acc ks) <-> k ∈ ks \/ k ∈ dict_keys acc.
Proof.
  unfold store_all.
  induction ks as [|k0 ks IH]; intros acc k; cbn [foldl].
  - set_solver.
  - rewrite IH, dict_keys_setitem, elem_of_cons. naive_solver.
Qed.

Lemma store_all_NoDup f ks : forall acc,
  NoDup (dict_keys acc) -> NoDup (dict_keys (store_all f acc ks)).
Proof.
  unfold store_all.
  induction ks as [|k0 ks IH]; intros acc Hnd; cbn [foldl]; [done|].
  by apply IH, dict_keys_setitem_NoDup.
Qed.

(** Starting from the empty dictionary, one entry per distinct key. *)
Lemma store_all_fresh_length f ks :
  length (store_all f [] ks) = length (remove_dups ks).
Proof.
  transitivity (length (dict_keys (store_all f [] ks))).
  { unfold dict_keys. by rewrite length_fmap. }
  apply Permutation_length, NoDup_Permutation.
  - apply store_all_NoDup, NoDup_nil_2.
  - apply NoDup_remove_dups.
  - intros k. rewrite store_all_keys, elem_of_remove_dups. set_solver.
Qed.

(** ** The orchestrator *)

(** [NetworkTopologer.run] returns when every trace ends with a hop list or
    with a [TracerouteError], and has then stored every entry in order. *)
Lemma run_complete fuel w dests : forall self,
  (forall d, d ∈ dests ->
     is_Some (entry fuel w (NetworkTopologer.timeout self)
                    (NetworkTopologer.port self) d)) ->
  let f d := default [] (entry fuel w (NetworkTopologer.timeout self)
                               (NetworkTopologer.port self) d) in
  let res := store_all f (NetworkTopologer.results self) dests in
  NetworkTopologer.run fuel w self dests
  = Some (NetworkTopologer.set_results self res, Returned res).
Proof.
  induction dests as [|d rest IH]; intros self Hall f res.
  - subst res. by destruct self.
  - cbn [NetworkTopologer.run].
    destruct (Hall d) as [hops Hd]; [set_solver|].
    assert (Hf : f d = hops) by (subst f; cbv beta; by rewrite Hd).
    unfold entry in Hd.
    destruct (Traceroute.run fuel _ (w d) d) as [[hs|e]|]; [| |done].
    + cbn in Hd. injection Hd as ->.
      rewrite IH; [subst res; cbn [store_all foldl]; by rewrite Hf|].
      intros d' Hd'. apply Hall. set_solver.
    + cbn in Hd. destruct (is_TracerouteError e); [|done]. injection Hd as <-.
      rewrite IH; [subst res; cbn [store_all foldl]; by rewrite Hf|].
      intros d' Hd'. apply Hall. set_solver.
Qed.

(** Conversely, a call that returned has an entry for every destination. *)
Lemma run_returned_entries fuel w dests : forall self self' res,
  NetworkTopologer.run fuel w self dests = Some (self', Returned res) ->
  forall d, d ∈ dests ->
    is_Some (entry fuel w (NetworkTopologer.timeout self)
                   (NetworkTopologer.port self) d).
Proof.
  induction dests as [|d0 rest IH]; intros self self' res Hrun d Hd;
    [set_solver|].
  cbn [NetworkTopologer.run] in Hrun. unfold entry.
  destruct (Traceroute.run fuel _ (w d0) d0) as [[hs|e]|] eqn:Ht; [| |done].
  - apply elem_of_cons in Hd as [->|Hd]; [rewrite Ht; by eexists|].
    by apply (IH _ _ _ Hrun).
  - destruct (is_TracerouteError e) eqn:He; [|done].
    apply elem_of_cons in Hd as [->|Hd].
    + rewrite Ht. cbn. rewrite He. by eexists.
    + by apply (IH _ _ _ Hrun).
Qed.


(** [NetworkTopologer.run] never drops a key: what an earlier call stored is
    still there when a later call returns. *)
Lemma run_keeps_earlier_keys fuel w dests self self' res k :
  NetworkTopologer.run fuel w self dests = Some (self', Returned res) ->
  k ∈ dict_keys (NetworkTopologer.results self) ->
  k ∈ dict_keys res.
Proof.
  intros Hrun Hk.
  pose proof (run_returned_entries _ _ _ _ _ _ Hrun) as Hall.
  rewrite (run_complete fuel w dests self Hall) in Hrun.
  injection Hrun as _ <-. apply store_all_keys. by right.
Qed.





(** The collection loop of [run_parallel] over workers that all returned. *)
Lemma collect_returned f order : forall self,
  NetworkTopologer.collect self ((fun d => Returned (d, f d)) <$> order)
  = (NetworkTopologer.set_results self
       (store_all f (NetworkTopologer.results self) order),
     Returned (store_all f (NetworkTopologer.results self) order)).
Proof.
  induction order as [|d rest IH]; intros self; cbn; [by destruct self|].
  by rewrite IH.
Qed.

(** [run_parallel] starts from an empty store: when every trace ends with a
    hop list or a [TracerouteError] and the worker count is not negative,
    the keys it returns are the destinations and nothing else. *)
Lemma run_parallel_complete fuel w self dests workers order :
  order ≡ₚ dests ->
  match workers with Some n => 0 <= n | None => True end ->
  (forall d, d ∈ dests ->
     is_Some (entry fuel w (NetworkTopologer.timeout self)
                    (NetworkTopologer.port self) d)) ->
  exists res,
    NetworkTopologer.run_parallel fuel w self dests workers order
    = Some (NetworkTopologer.set_results self res, Returned res)
    /\ (forall k, k ∈ dict_keys res <-> k ∈ dests)
    /\ (forall d, d ∈ dests ->
          dict_get res d = entry fuel w (NetworkTopologer.timeout self)
                                 (NetworkTopologer.port self) d).
Proof.
  intros Hperm Hw Hall.
  set (f d := default [] (entry fuel w (NetworkTopologer.timeout self)
                                (NetworkTopologer.port self) d)).
  exists (store_all f [] order).
  unfold NetworkTopologer.run_parallel.
  cbv zeta.
  match goal with |- context [?m <=? 0] => destruct (Z.leb_spec m 0) as [Hle|_] end.
  { exfalso.
    assert (0 < (if bool_decide (dests = []) then 1 else Z.min (len dests) 32)).
    { case_bool_decide; [lia|]. unfold len. destruct dests; [done|].
      cbn [length]. lia. }
    destruct workers as [n|]; [|lia].
    destruct (Z.eqb_spec n 0); lia. }
  assert (Hmap : mapM (NetworkTopologer._worker fuel w
                         (NetworkTopologer.set_results self [])) order
                 = Some ((fun d => Returned (d, f d)) <$> order)).
  { apply mapM_Some_2, Forall2_fmap_r, Forall_Forall2_diag, Forall_forall.
    intros d Hd. rewrite Hperm in Hd. destruct (Hall d Hd) as [hops Hhops].
    unfold f, compose; cbv beta. rewrite Hhops. cbn [default].
    unfold entry in Hhops. unfold NetworkTopologer._worker.
    cbn [NetworkTopologer.set_results NetworkTopologer.timeout
         NetworkTopologer.port].
    destruct (Traceroute.run fuel _ (w d) d) as [[hs|e]|]; cbn in Hhops;
      [by simplify_eq| |done].
    destruct (is_TracerouteError e); by simplify_eq. }
  rewrite Hmap, collect_returned. split; [done|]. split.
  - intros k. rewrite store_all_keys, Hperm. set_solver.
  - intros d Hd. rewrite store_all_get, decide_True by (by rewrite Hperm).
    unfold f. by destruct (Hall d Hd) as [hops ->].
Qed.

(** ** The claims about failures *)

(** C9 fails on the code: for a destination whose name does not resolve,
    [Traceroute.run] raises [DNSResolveError]; it returns no sequence, and
    in particular not the empty one. *)
Lemma run_unresolved_raises :
  gethostbyname unresolved_net "nowhere.invalid" = None
  /\ Traceroute.run 5 default_tracer unresolved_net "nowhere.invalid"
     = Some (Raised DNSResolveError)
  /\ Traceroute.run 5 default_tracer unresolved_net "nowhere.invalid"
     <> Some (Returned []).
Proof.
  repeat split. discriminate.
Qed.

(** C9 as amended: when name resolution fails, [Traceroute.run] raises
    [DNSResolveError] whatever the fuel; a trace that does return has
    recorded at least one hop, so it never returns the empty sequence; the
    empty sequence is what [NetworkTopologer.run] records for the failed
    destination. *)
Theorem run_unresolved_is_recorded_empty fuel self n destination :
  gethostbyname n destination = None ->
  Traceroute.run fuel self n destination = Some (Raised DNSResolveError)
  /\ (forall fuel' n' hops,
        Traceroute.run fuel' self n' destination = Some (Returned hops) ->
        hops <> [])
  /\ (forall w nt, w destination = n ->
        exists nt',
          NetworkTopologer.run fuel w nt [destination]
          = Some (nt', Returned (NetworkTopologer.results nt'))
          /\ dict_get (NetworkTopologer.results nt') destination = Some []).
Proof.
  intros Hr. split; [by apply run_unresolved|]. split.
  - intros fuel' n' hops. apply run_returns_nonempty.
  - intros w nt Hw. cbn [NetworkTopologer.run]. rewrite Hw.
    rewrite run_unresolved by done. cbn [is_TracerouteError].
    eexists. split; [reflexivity|]. apply dict_get_setitem_eq.
Qed.

Lemma run_unresolved_is_recorded_empty_witness :
  Traceroute.run 5 default_tracer unresolved_net "nowhere.invalid"
  = Some (Raised DNSResolveError)
  /\ exists nt',
       NetworkTopologer.run 5 sample_world fresh ["nowhere.invalid"]
       = Some (nt', Returned (NetworkTopologer.results nt'))
       /\ dict_get (NetworkTopologer.results nt') "nowhere.invalid" = Some [].
Proof.
  destruct (run_unresolved_is_recorded_empty 5 default_tracer unresolved_net
              "nowhere.invalid" eq_refl) as (H1 & _ & H3).
  split; [exact H1|]. exact (H3 sample_world fresh eq_refl).
Defined.




(** C8 fails on the code as stated: a destination listed twice has one
    entry, so the mapping has fewer entries than there are destinations. *)
Lemma run_repeated_destination :
  NetworkTopologer.run 5 sample_world fresh
    ["10.0.0.3"; "nowhere.invalid"; "10.0.0.3"]
  = Some (NetworkTopologer.set_results fresh
            [("10.0.0.3", three_hops); ("nowhere.invalid", [])],
          Returned [("10.0.0.3", three_hops); ("nowhere.invalid", [])])
  /\ length [("10.0.0.3", three_hops); ("nowhere.invalid", @nil hop)]
     <> length ["10.0.0.3"; "nowhere.invalid"; "10.0.0.3"].
Proof.
  split; [reflexivity | discriminate].
Qed.

(** C8 as amended: on an instance whose store is empty, for every batch in
    which each trace ends with a hop list or a [TracerouteError], the call
    returns; a destination whose trace failed on name resolution or on
    permission is present with an empty hop list, every other destination
    is present with the hop list of its trace, and the mapping has exactly
    one entry per distinct destination: as many entries as destinations
    when none is listed twice. *)
Theorem run_partial_failure fuel w timeout port dests :
  (forall d, d ∈ dests -> is_Some (entry fuel w timeout port d)) ->
  exists self' res,
    NetworkTopologer.run fuel w (NetworkTopologer.init timeout port) dests
    = Some (self', Returned res)
    /\ NetworkTopologer.results self' = res
    /\ (forall d e, d ∈ dests ->
          Traceroute.run fuel (Traceroute.mk timeout port) (w d) d
          = Some (Raised e) ->
          e = DNSResolveError \/ e = TraceroutePermissionError ->
          dict_get res d = Some [])
    /\ (forall d hops, d ∈ dests ->
          Traceroute.run fuel (Traceroute.mk timeout port) (w d) d
          = Some (Returned hops) ->
          dict_get res d = Some hops)
    /\ (forall k, k ∈ dict_keys res <-> k ∈ dests)
    /\ NoDup (dict_keys res)
    /\ length res = length (remove_dups dests)
    /\ (NoDup dests -> length res = length dests).
Proof.
  intros Hall.
  pose proof (run_complete fuel w dests (NetworkTopologer.init timeout port)
                Hall) as Hrun.
  cbv zeta in Hrun.
  cbn [NetworkTopologer.init NetworkTopologer.timeout NetworkTopologer.port
       NetworkTopologer.results] in Hrun.
  set (f d := default [] (entry fuel w timeout port d)) in *.
  exists (NetworkTopologer.set_results (NetworkTopologer.init timeout port)
            (store_all f [] dests)), (store_all f [] dests).
  split; [exact Hrun|]. split; [reflexivity|].
  assert (Hget : forall d, d ∈ dests ->
            dict_get (store_all f [] dests) d = entry fuel w timeout port d).
  { intros d Hd. rewrite store_all_get, decide_True by done.
    unfold f. by destruct (Hall d Hd) as [hops ->]. }
  repeat split.
  - intros d e Hd Ht He. rewrite Hget by done. unfold entry. rewrite Ht.
    by destruct He as [-> | ->].
  - intros d hops Hd Ht. rewrite Hget by done. unfold entry. by rewrite Ht.
  - rewrite store_all_keys. set_solver.
  - rewrite store_all_keys. set_solver.
  - apply store_all_NoDup, NoDup_nil_2.
  - apply store_all_fresh_length.
  - intros Hnd. rewrite store_all_fresh_length.
    apply Permutation_length, NoDup_Permutation;
      [apply NoDup_remove_dups | done |].
    intros k. apply elem_of_remove_dups.
Qed.

Lemma run_partial_failure_witness :
  exists self' res,
    NetworkTopologer.run 5 sample_world (NetworkTopologer.init 2 33434)
      ["10.0.0.3"; "nowhere.invalid"; "10.0.0.4"]
    = Some (self', Returned res)
    /\ dict_get res "nowhere.invalid" = Some []
    /\ dict_get res "10.0.0.3" = Some three_hops
    /\ length res = 3%nat.
Proof.
  destruct (run_partial_failure 5 sample_world 2 33434
              ["10.0.0.3"; "nowhere.invalid"; "10.0.0.4"])
    as (self' & res & Hrun & _ & Hfail & Hok & _ & _ & _ & Hlen).
  - intros d Hd. apply list_elem_of_In in Hd.
    destruct Hd as [<-|[<-|[<-|[]]]]; vm_compute; eexists; reflexivity.
  - exists self', res. split; [exact Hrun|]. split; [|split].
    + apply (Hfail "nowhere.invalid" DNSResolveError).
      * apply list_elem_of_In. right. left. reflexivity.
      * reflexivity.
      * left. reflexivity.
    + apply Hok; [|reflexivity]. apply list_elem_of_In. left. reflexivity.
    + apply Hlen. apply NoDup_ListNoDup.
      repeat constructor; vm_compute; intuition discriminate.
Defined.

(** C6, evaluated on the code: after [run(["10.0.0.3"])], a second call
    [run(["nowhere.invalid"])] on the same instance stores and returns a
    mapping that still holds the key of the first call, which is not in the
    second list; [run_parallel] on the same instance and list starts from an
    empty store and returns the one key of its list. *)
Theorem run_keeps_entries_of_earlier_call :
  let first := NetworkTopologer.set_results fresh [("10.0.0.3", three_hops)] in
  let both := [("10.0.0.3", three_hops); ("nowhere.invalid", [])] in
  NetworkTopologer.run 5 sample_world fresh ["10.0.0.3"]
  = Some (first, Returned [("10.0.0.3", three_hops)])
  /\ NetworkTopologer.run 5 sample_world first ["nowhere.invalid"]
     = Some (NetworkTopologer.set_results fresh both, Returned both)
  /\ dict_keys both = ["10.0.0.3"; "nowhere.invalid"]
  /\ NetworkTopologer.run_parallel 5 sample_world first ["nowhere.invalid"]
       None ["nowhere.invalid"]
     = Some (NetworkTopologer.set_results fresh [("nowhere.invalid", [])],
             Returned [("nowhere.invalid", [])]).
Proof.
  repeat split.
Qed.

(** ** Loops over indices *)

Lemma getitem_lookup {A : Type} (l : list A) (i : nat) (x : A) :
  l !! i = Some x -> getitem l (Z.of_nat i) = Returned x.
Proof.
  intros Hl. unfold getitem.
  assert (Hi : (Z.of_nat i <? 0) = false) by (apply Z.ltb_ge; lia).
  cbv zeta. by rewrite !Hi, Nat2Z.id, Hl.
Qed.

Lemma for_each_returned {A St : Type} (xs : list A) (body : St -> A -> outcome St)
    (g : St -> A -> St) :
  (forall s x, x ∈ xs -> body s x = Returned (g s x)) ->
  forall s, for_each xs body s = Returned (foldl g s xs).
Proof.
  induction xs as [|x xs IH]; intros Hb s; cbn [for_each foldl]; [done|].
  rewrite Hb by set_solver. cbn [mbind outcome_bind].
  apply IH. intros s' x' Hx'. apply Hb. set_solver.
Qed.

(** A body that reads [l[i]] and [l[i + 1]] visits the consecutive pairs. *)
Lemma for_each_from {A St : Type} (l : list A) (body : St -> Z -> outcome St)
    (step : St -> A * A -> St) :
  (forall s i a b, l !! i = Some a -> l !! S i = Some b ->
     body s (Z.of_nat i) = Returned (step s (a, b))) ->
  forall n k s,
    (k + n + 1 = length l)%nat ->
    for_each (Z.of_nat <$> seq k n) body s
    = Returned (foldl step s (consecutive (drop k l))).
Proof.
  intros Hb. induction n as [|n IH]; intros k s Hlen.
  - cbn [seq fmap list_fmap for_each].
    assert (Hd : length (drop k l) = 1%nat) by (rewrite length_drop; lia).
    destruct (drop k l) as [|x [|y t]]; by simplify_eq/=.
  - cbn [seq fmap list_fmap for_each].
    destruct (lookup_lt_is_Some_2 l k) as [a Ha]; [lia|].
    destruct (lookup_lt_is_Some_2 l (S k)) as [b Hb']; [lia|].
    rewrite (Hb s k a b Ha Hb'). cbn [mbind outcome_bind].
    rewrite IH by lia.
    rewrite (drop_S l a k Ha), (drop_S l b (S k) Hb'). reflexivity.
Qed.

Lemma for_each_consecutive {A St : Type} (l : list A)
    (body : St -> Z -> outcome St) (step : St -> A * A -> St) (s : St) :
  (forall s i a b, l !! i = Some a -> l !! S i = Some b ->
     body s (Z.of_nat i) = Returned (step s (a, b))) ->
  for_each (range (len l - 1)) body s
  = Returned (foldl step s (consecutive l)).
Proof.
  intros Hb. unfold range, len. destruct l as [|x l]; [done|].
  replace (Z.to_nat (Z.of_nat (length (x :: l)) - 1)) with (length l)
    by (cbn [length]; lia).
  by rewrite (for_each_from (x :: l) body step Hb (length l) 0 s)
    by (cbn [length]; lia).
Qed.

(** ** The adjacency graph *)

Lemma has_edge_add g a0 b0 a b :
  has_edge (NetworkTopologer.add_successor g a0 b0) a b
  <-> (a = a0 /\ b = b0) \/ has_edge g a b.
Proof.
  unfold has_edge, NetworkTopologer.add_successor. split.
  - intros (succ & Hl & Hin). destruct (decide (a0 = a)) as [->|Hne].
    + rewrite lookup_insert_eq in Hl. injection Hl as <-.
      apply elem_of_union in Hin as [Hin|Hin]; [|set_solver].
      right. destruct (g !! a) as [succ|]; [eauto | set_solver].
    + rewrite lookup_insert_ne in Hl by done. eauto.
  - intros [[-> ->]|(succ & Hl & Hin)].
    + eexists. rewrite lookup_insert_eq. split; [done | set_solver].
    + destruct (decide (a0 = a)) as [->|Hne].
      * eexists. rewrite lookup_insert_eq. split; [done|].
        rewrite Hl. set_solver.
      * exists succ. by rewrite lookup_insert_ne.
Qed.

Lemma has_edge_path (ps : list (string * string)) : forall g a b,
  has_edge (foldl (fun g '(a, b) => NetworkTopologer.add_successor g a b) g ps)
           a b
  <-> (a, b) ∈ ps \/ has_edge g a b.
Proof.
  induction ps as [|[a0 b0] ps IH]; intros g a b; cbn [foldl].
  - set_solver.
  - rewrite IH, has_edge_add, elem_of_cons. naive_solver.
Qed.

Lemma has_edge_derive (rs : dict (list hop)) : forall g a b,
  has_edge (foldl (fun g '(_, hops) =>
              foldl (fun g '(a, b) => NetworkTopologer.add_successor g a b)
                    g (consecutive (present_addresses hops))) g rs) a b
  <-> (exists d hops, (d, hops) ∈ rs
                      /\ (a, b) ∈ consecutive (present_addresses hops))
      \/ has_edge g a b.
Proof.
  induction rs as [|[d0 hops0] rs IH]; intros g a b; cbn [foldl].
  - split; [eauto|]. intros [(d & hops & Hin & _)|]; [|done].
    by apply elem_of_nil in Hin.
  - rewrite IH, has_edge_path. split.
    + intros [(d & hops & Hin & He)|[He|Hg]]; [| |by right].
      * left. exists d, hops. split; [by apply elem_of_cons; right | done].
      * left. exists d0, hops0. split; [by apply elem_of_cons; left | done].
    + intros [(d & hops & Hin & He)|Hg]; [|by right; right].
      apply elem_of_cons in Hin as [[= -> ->]|Hin]; [by right; left|].
      left. eauto.
Qed.

Lemma build_adjacency_eq self arg :
  NetworkTopologer.build_adjacency self arg
  = Returned (derive_adjacency (default (NetworkTopologer.results self) arg)).
Proof.
  unfold NetworkTopologer.build_adjacency, derive_adjacency.
  apply for_each_returned. intros g [d hops] _.
  apply (for_each_consecutive (omap hop_ip hops)).
  intros s i a b Ha Hb.
  rewrite (getitem_lookup _ _ _ Ha). cbn [mbind outcome_bind].
  replace (Z.of_nat i + 1) with (Z.of_nat (S i)) by lia.
  by rewrite (getitem_lookup _ _ _ Hb).
Qed.

(** Every address that is a key has at least one successor. *)
Lemma derive_adjacency_no_empty (rs : dict (list hop)) a succ :
  derive_adjacency rs !! a = Some succ -> succ <> ∅.
Proof.
  unfold derive_adjacency.
  assert (Hadd : forall ps g,
    (forall a succ, g !! a = Some succ -> succ <> ∅) ->
    forall a succ,
      foldl (fun g '(a, b) => NetworkTopologer.add_successor g a b) g ps !! a
      = Some succ -> succ <> ∅).
  { induction ps as [|[a0 b0] ps IH]; intros g Hg; cbn [foldl]; [done|].
    apply IH. intros a' succ'. unfold NetworkTopologer.add_successor.
    destruct (decide (a0 = a')) as [->|Hne].
    - rewrite lookup_insert_eq. intros [= <-]. set_solver.
    - rewrite lookup_insert_ne by done. apply Hg. }
  assert (Hall : forall g,
    (forall a succ, g !! a = Some succ -> succ <> ∅) ->
    forall a succ,
      foldl (fun g '(_, hops) =>
               foldl (fun g '(a, b) => NetworkTopologer.add_successor g a b)
                     g (consecutive (present_addresses hops))) g rs !! a
      = Some succ -> succ <> ∅).
  { induction rs as [|[d hops] rs IH]; intros g Hg; cbn [foldl]; [done|].
    apply IH. by apply Hadd. }
  apply Hall. intros a' succ'. by rewrite lookup_empty.
Qed.

(** C1: [build_adjacency] returns exactly the graph derive_adjacency
    describes: per hop list, the present addresses in order, an edge from
    each to the next, collected in sets. Its edges are those pairs and no
    others, and no key has an empty set. A hop without address is skipped,
    so [(1,A,_), (2,absent,_), (3,D,_)] gives {A: {D}}, and
    [(1,A,10.0), (2,B,20.0), (3,D,30.0)] gives {A: {B}, B: {D}}. *)
Theorem build_adjacency_derives self result_set :
  NetworkTopologer.build_adjacency self (Some result_set)
  = Returned (derive_adjacency result_set)
  /\ NetworkTopologer.build_adjacency
       (NetworkTopologer.set_results self result_set) None
     = Returned (derive_adjacency result_set)
  /\ (forall a b,
        has_edge (derive_adjacency result_set) a b
        <-> exists d hops, (d, hops) ∈ result_set
                           /\ (a, b) ∈ consecutive (present_addresses hops))
  /\ (forall a succ, derive_adjacency result_set !! a = Some succ -> succ <> ∅)
  /\ (forall d A D r1 r2 r3,
        NetworkTopologer.build_adjacency self
          (Some [(d, [(1, Some A, r1); (2, None, r2); (3, Some D, r3)])])
        = Returned {[A := {[D]}]})
  /\ (forall d A B D, A <> B ->
        NetworkTopologer.build_adjacency self
          (Some [(d, [(1, Some A, Some 10%float); (2, Some B, Some 20%float);
                      (3, Some D, Some 30%float)])])
        = Returned (<[B := {[D]}]> {[A := {[B]}]})).
Proof.
  split; [apply build_adjacency_eq|]. split; [apply build_adjacency_eq|].
  split; [|split; [|split]].
  - intros a b. unfold derive_adjacency. rewrite has_edge_derive.
    split; [|by left]. intros [H|(succ & Hl & _)]; [done|].
    by rewrite lookup_empty in Hl.
  - intros a succ. apply derive_adjacency_no_empty.
  - intros d A D r1 r2 r3. rewrite build_adjacency_eq. f_equal.
    cbn. unfold NetworkTopologer.add_successor.
    rewrite lookup_empty, insert_empty. cbn [default].
    by rewrite (left_id_L ∅ (∪)).
  - intros d A B D Hne. rewrite build_adjacency_eq. f_equal.
    cbn. unfold NetworkTopologer.add_successor.
    rewrite lookup_empty, insert_empty. cbn [default].
    rewrite lookup_singleton_ne by done. cbn [default].
    by rewrite !(left_id_L ∅ (∪)).
Qed.

Lemma build_adjacency_derives_witness :
  NetworkTopologer.build_adjacency fresh
    (Some [("example.com",
            [(1, Some "10.0.0.1", Some 10%float);
             (2, Some "10.0.0.2", Some 20%float);
             (3, Some "10.0.0.3", Some 30%float)])])
  = Returned (<["10.0.0.2" := {["10.0.0.3"]}]> {["10.0.0.1" := {["10.0.0.2"]}]}).
Proof.
  destruct (build_adjacency_derives fresh []) as (_ & _ & _ & _ & _ & H).
  apply (H "example.com" "10.0.0.1" "10.0.0.2" "10.0.0.3"). discriminate.
Defined.

(** ** Floats: the truth value and the sign of a difference *)

Lemma Prim2SF_zero : Prim2SF 0%float = S754_zero false.
Proof. reflexivity. Qed.

(** A falsy float is one of the two zeros. *)
Lemma falsy_zero x : truthy x = false -> exists s, Prim2SF x = S754_zero s.
Proof.
  unfold truthy. rewrite negb_false_iff, FloatAxioms.eqb_spec, Prim2SF_zero.
  destruct (Prim2SF x) as [s|s| |s m e]; cbn; try discriminate; eauto;
    destruct s; discriminate.
Qed.

(** Subtracting a zero from a non-zero float changes nothing. *)
Lemma sub_zero_r d s b :
  Prim2SF s = S754_zero b -> truthy d = true -> (d - s)%float = d.
Proof.
  unfold truthy. rewrite negb_true_iff. intros Hs Hd.
  apply Prim2SF_inj. rewrite FloatAxioms.sub_spec, Hs.
  rewrite FloatAxioms.eqb_spec, Prim2SF_zero in Hd.
  destruct (Prim2SF d) as [sd|sd| |sd m e]; cbn in *;
    try reflexivity; discriminate.
Qed.

(** A positive float is truthy. *)
Lemma positive_truthy x : (0 <? x)%float = true -> truthy x = true.
Proof.
  unfold truthy. rewrite negb_true_iff, FloatAxioms.ltb_spec, FloatAxioms.eqb_spec, Prim2SF_zero.
  destruct (Prim2SF x) as [s|s| |s m e]; cbn; try discriminate;
    try reflexivity; destruct s; try discriminate; reflexivity.
Qed.

(** Zero minus a non-negative float is not positive. *)
Lemma zero_sub_nonneg d s b :
  Prim2SF d = S754_zero b -> (0 <=? s)%float = true ->
  (0 <? d - s)%float = false.
Proof.
  intros Hd Hs. rewrite FloatAxioms.ltb_spec, FloatAxioms.sub_spec, Hd, Prim2SF_zero.
  rewrite FloatAxioms.leb_spec, Prim2SF_zero in Hs.
  destruct (Prim2SF s) as [ss|ss| |ss m e]; cbn in *;
    try discriminate; try reflexivity.
  - destruct b, ss; reflexivity.
  - destruct ss; [discriminate | reflexivity].
  - destruct ss; [discriminate | reflexivity].
Qed.

(** The test [delta_ms and delta_ms > 0] is the test [delta_ms > 0]. *)
Lemma truthy_and_positive x : truthy x && (0 <? x)%float = (0 <? x)%float.
Proof.
  destruct (0 <? x)%float eqn:Hp; [|apply andb_false_r].
  by rewrite positive_truthy.
Qed.

(** One step of the latency loop, as the code computes it, is the step the
    specification describes once the earlier round-trip time is not
    negative. *)
Lemma latency_step m (a b : string) (ra rb : float) :
  (0 <=? ra)%float = true ->
  (let delta_ms := if truthy rb && truthy ra then (rb - ra)%float else rb in
   if truthy delta_ms && (0 <? delta_ms)%float
   then NetworkTopologer.add_sample m (a, b) delta_ms else m)
  = (if (0 <? rb - ra)%float
     then NetworkTopologer.add_sample m (a, b) (rb - ra)%float else m).
Proof.
  intros Hra. cbv zeta. rewrite truthy_and_positive.
  destruct (truthy rb) eqn:Hb; cbn [andb].
  - destruct (truthy ra) eqn:Ha; [done|].
    destruct (falsy_zero ra Ha) as [s Hs]. by rewrite (sub_zero_r rb ra s Hs Hb).
  - destruct (falsy_zero rb Hb) as [s Hs].
    rewrite (zero_sub_nonneg rb ra s Hs Hra).
    destruct (0 <? rb)%float eqn:Hp; [|done].
    apply positive_truthy in Hp. congruence.
Qed.

(** ** The edge-latency graph *)

Lemma foldl_ext_in {A B : Type} (f g : B -> A -> B) (l : list A) :
  (forall s x, x ∈ l -> f s x = g s x) ->
  forall s, foldl f s l = foldl g s l.
Proof.
  induction l as [|x l IH]; intros Hfg s; cbn [foldl]; [done|].
  rewrite Hfg by set_solver. apply IH. intros s' x' Hx'. apply Hfg. set_solver.
Qed.

Lemma timed_hops_nonneg (hops : list hop) a ra :
  (forall h, h ∈ hops -> rtt_nonneg h) ->
  (a, ra) ∈ timed_hops hops -> (0 <=? ra)%float = true.
Proof.
  intros Hall Hin. apply list_elem_of_omap in Hin as (h & Hh & Hp).
  specialize (Hall h Hh). unfold rtt_nonneg in Hall.
  unfold NetworkTopologer.ip_rtt in Hp.
  destruct (hop_ip h); [|done]. destruct (hop_rtt h); [|done].
  by simplify_eq.
Qed.

Lemma build_adjacency_with_latency_eq self arg :
  (forall d hops h,
     (d, hops) ∈ default (NetworkTopologer.results self) arg ->
     h ∈ hops -> rtt_nonneg h) ->
  NetworkTopologer.build_adjacency_with_latency self arg
  = Returned (derive_edge_latency (default (NetworkTopologer.results self) arg)).
Proof.
  intros Hnn.
  unfold NetworkTopologer.build_adjacency_with_latency, derive_edge_latency.
  apply for_each_returned. intros m [d hops] Hin.
  rewrite (for_each_consecutive (omap NetworkTopologer.ip_rtt hops) _
    (fun m '((a, ra), (b, rb)) =>
       let delta_ms := if truthy rb && truthy ra then (rb - ra)%float else rb in
       if truthy delta_ms && (0 <? delta_ms)%float
       then NetworkTopologer.add_sample m (a, b) delta_ms else m)).
  - f_equal. apply foldl_ext_in. intros s [[a ra] [b rb]] Hp.
    apply latency_step. apply elem_of_zip_l in Hp.
    eapply timed_hops_nonneg; [|exact Hp]. intros h Hh. by eapply Hnn.
  - intros s i [a ra] [b rb] Ha Hb.
    rewrite (getitem_lookup _ _ _ Ha). cbn [mbind outcome_bind].
    replace (Z.of_nat i + 1) with (Z.of_nat (S i)) by lia.
    rewrite (getitem_lookup _ _ _ Hb). cbn [mbind outcome_bind].
    cbv zeta. by destruct (_ && _).
Qed.

(** The example hop list of the specification. *)
Lemma latency_example d A B D :
  (A, B) <> (B, D) ->
  derive_edge_latency
    [(d, [(1, Some A, Some 10%float); (2, Some B, Some 20%float);
          (3, Some D, Some 30%float)])]
  = <[(B, D) := [10%float]]> {[(A, B) := [10%float]]}.
Proof.
  intros Hne. unfold derive_edge_latency, timed_hops, consecutive.
  cbn [foldl omap list_omap NetworkTopologer.ip_rtt hop_ip hop_rtt fst snd
       tail zip zip_with].
  change (20 - 10)%float with 10%float. change (30 - 20)%float with 10%float.
  change (0 <? 10)%float with true. cbv iota.
  unfold NetworkTopologer.add_sample.
  rewrite lookup_empty, insert_empty. cbn [default app].
  by rewrite lookup_singleton_ne.
Qed.

(** Without the sign condition the two could differ: from a hop at -5.0 ms
    to a hop at 0.0 ms the code keeps no sample, although the difference is
    5.0. *)
Lemma latency_negative_rtt :
  let rs := [("example.com", [(1, Some "10.0.0.1", Some (-5)%float);
                              (2, Some "10.0.0.2", Some 0%float)])] in
  NetworkTopologer.build_adjacency_with_latency fresh (Some rs) = Returned ∅
  /\ derive_edge_latency rs = {[("10.0.0.1", "10.0.0.2") := [5%float]]}.
Proof.
  split; [reflexivity|].
  unfold derive_edge_latency, timed_hops, consecutive.
  cbn [foldl omap list_omap NetworkTopologer.ip_rtt hop_ip hop_rtt fst snd
       tail zip zip_with].
  change (0 - -5)%float with 5%float. change (0 <? 5)%float with true.
  cbv iota. unfold NetworkTopologer.add_sample.
  by rewrite lookup_empty, insert_empty.
Qed.

(** * Further properties of the code *)

(** ** traceroute.py *)

Lemma receive_loop_wf timeout start script :
  forall st, reply_wf st ->
    exists r, Traceroute.receive_loop timeout start st script = Returned r
              /\ reply_wf r.
Proof.
  induction script as [|it rest IH]; intros st Hst;
    cbn [Traceroute.receive_loop]; [eauto|].
  destruct (_ <=? _)%float; [eauto|].
  destruct (readable it) as [[data a t|]|]; eauto.
  rewrite parse_icmp_type_eq. cbn [mbind outcome_bind].
  match goal with |- context [Traceroute.in_11_3 ?x] => set (ty := x) end.
  assert (Hwf : reply_wf (Some a, ty, Some ((t - start) * 1000)%float)).
  { unfold reply_wf. cbn [fst snd]. split; [split; discriminate|].
    split; [discriminate|]. intros v Hv. subst ty.
    destruct (_ || _); [discriminate|].
    destruct (data !! _) as [b|]; [|discriminate].
    injection Hv as <-. apply byte_range. }
  destruct (Traceroute.in_11_3 ty); eauto.
Qed.

(** X1: [_receive_reply] never raises, and the triple it returns has a
    round-trip time exactly when it has an address, a type only together
    with an address, and a type between 0 and 255. *)
Theorem receive_reply_well_formed p timeout :
  exists r, Traceroute._receive_reply p timeout = Returned r /\ reply_wf r.
Proof.
  apply receive_loop_wf. unfold reply_wf. cbn [fst snd].
  split; [done|]. split; [done | discriminate].
Qed.

(** X2: [_receive_reply] returns the no-reply triple exactly when its first
    turn reads no datagram in time: nothing was readable, the time had
    elapsed, or [recvfrom] failed. *)
Theorem receive_reply_no_reply_iff p timeout :
  Traceroute._receive_reply p timeout = Returned (None, None, None)
  <-> ~ first_turn_reads timeout p.
Proof.
  split.
  - intros Hret (it & rest & data & a & t & Ha & Hr & Ht).
    by eapply receive_reply_after_datagram.
  - intros Hno. unfold Traceroute._receive_reply.
    destruct (arrivals p) as [|it rest] eqn:Ha; [done|].
    cbn [Traceroute.receive_loop].
    destruct (_ <=? _)%float eqn:Ht; [done|].
    destruct (readable it) as [[data a t|]|] eqn:Hr; [|done|done].
    exfalso. apply Hno. by exists it, rest, data, a, t.
Qed.

Lemma probe_loop_hops_wf fuel self n dest_ip base_port :
  forall ttl hops res,
    Forall hop_wf hops ->
    Traceroute.probe_loop fuel self n dest_ip base_port ttl hops
    = Some (Returned res) ->
    Forall hop_wf res.
Proof.
  induction fuel as [|fuel IH]; intros ttl hops res Hwf Hrun;
    cbn [Traceroute.probe_loop] in Hrun; [discriminate|].
  destruct (Traceroute._send_probe _ _ _ _); [|discriminate].
  destruct (receive_reply_well_formed (probe_at n ttl) (Traceroute.timeout self))
    as ([[addr ty] rtt] & Hr & Hrwf & _).
  rewrite Hr in Hrun. cbn [fst snd] in Hrwf.
  assert (Hnew : Forall hop_wf (hops ++ [(ttl, addr, rtt)])).
  { apply Forall_app. split; [done|]. by apply Forall_singleton. }
  destruct addr as [ip|].
  - destruct (_ || _); [by injection Hrun as <-|]. by eapply IH.
  - eapply IH; [|exact Hrun]. apply Forall_app. split; [done|].
    by apply Forall_singleton.
Qed.

(** X3: in every hop list [Traceroute.run] returns, a hop has a round-trip
    time exactly when it has an address: each hop is a timeout
    [(ttl, None, None)] or a reply with both. *)
Theorem run_hops_well_formed fuel self n destination hops :
  Traceroute.run fuel self n destination = Some (Returned hops) ->
  Forall hop_wf hops.
Proof.
  unfold Traceroute.run. intros Hrun.
  destruct (Traceroute._resolve n destination); [|discriminate].
  destruct (Traceroute._create_sockets n); [|discriminate].
  by eapply probe_loop_hops_wf.
Qed.

Lemma run_hops_well_formed_witness : Forall hop_wf three_hops.
Proof.
  apply (run_hops_well_formed 5 default_tracer three_hop_net "10.0.0.3").
  reflexivity.
Defined.

Lemma probe_loop_last fuel self n dest_ip base_port :
  forall ttl hops res,
    Forall (fun h => hop_ip h <> Some dest_ip) hops ->
    Traceroute.probe_loop fuel self n dest_ip base_port ttl hops
    = Some (Returned res) ->
    exists init t a rtt,
      res = init ++ [(t, Some a, rtt)]
      /\ Forall (fun h => hop_ip h <> Some dest_ip) init.
Proof.
  induction fuel as [|fuel IH]; intros ttl hops res Hne Hrun;
    cbn [Traceroute.probe_loop] in Hrun; [discriminate|].
  destruct (Traceroute._send_probe _ _ _ _); [|discriminate].
  destruct (Traceroute._receive_reply _ _) as [[[[ip|] ty] rtt]|];
    [| |discriminate].
  - destruct (bool_decide (ip = dest_ip)) eqn:Hd; cbn [orb] in Hrun.
    + injection Hrun as <-. by exists hops, ttl, ip, rtt.
    + apply bool_decide_eq_false in Hd.
      destruct (match ty with Some v => v =? 3 | None => false end).
      * injection Hrun as <-. by exists hops, ttl, ip, rtt.
      * eapply IH; [|exact Hrun]. apply Forall_app. split; [done|].
        apply Forall_singleton. cbn. congruence.
  - eapply IH; [|exact Hrun]. apply Forall_app. split; [done|].
    by apply Forall_singleton.
Qed.

(** X4: a hop list [Traceroute.run] returns ends with a hop that has an
    address, and no hop before the last one carries the resolved address of
    the destination: the trace stops at the first reply from it. *)
Theorem run_stops_at_destination fuel self n destination hops :
  Traceroute.run fuel self n destination = Some (Returned hops) ->
  exists dest_ip init t a rtt,
    gethostbyname n destination = Some dest_ip
    /\ hops = init ++ [(t, Some a, rtt)]
    /\ Forall (fun h => hop_ip h <> Some dest_ip) init.
Proof.
  unfold Traceroute.run, Traceroute._resolve. intros Hrun.
  destruct (gethostbyname n destination) as [dest_ip|]; [|discriminate].
  destruct (Traceroute._create_sockets n); [|discriminate].
  destruct (probe_loop_last _ _ _ _ _ _ _ _ (Forall_nil_2 _) Hrun)
    as (init & t & ip & rtt & -> & Hinit).
  by exists dest_ip, init, t, ip, rtt.
Qed.

Lemma run_stops_at_destination_witness :
  exists dest_ip init t a rtt,
    gethostbyname three_hop_net "10.0.0.3" = Some dest_ip
    /\ three_hops = init ++ [(t, Some a, rtt)]
    /\ Forall (fun h => hop_ip h <> Some dest_ip) init.
Proof.
  apply (run_stops_at_destination 5 default_tracer three_hop_net "10.0.0.3").
  reflexivity.
Defined.

(** X6: [_parse_icmp_type] does not reject a header length below the 20
    bytes of the fixed IPv4 header: for a datagram of at least 20 bytes
    whose length nibble is at most 4, it returns the byte found inside the
    header at that offset; with nibble 0 that is the first byte itself. *)
Theorem parse_accepts_short_header_length (data : list byte) :
  20 <= len data ->
  header_len data + 4 <= 20 ->
  (exists b, data !! Z.to_nat (header_len data) = Some b
             /\ Traceroute._parse_icmp_type data = Returned (Some (byte_val b)))
  /\ (header_len data = 0 ->
      exists b0 rest, data = b0 :: rest
        /\ Traceroute._parse_icmp_type data = Returned (Some (byte_val b0))).
Proof.
  intros Hlen Hih. pose proof (header_len_range data) as Hr.
  assert (Hp : exists b, data !! Z.to_nat (header_len data) = Some b
                 /\ Traceroute._parse_icmp_type data
                    = Returned (Some (byte_val b))).
  { destruct (lookup_lt_is_Some_2 data (Z.to_nat (header_len data))) as [b Hb].
    { unfold len in Hlen. lia. }
    exists b. split; [done|]. rewrite parse_icmp_type_eq.
    destruct (Z.ltb_spec (len data) 20); [lia|].
    destruct (Z.ltb_spec (len data) (header_len data + 4)); [lia|].
    by rewrite Hb. }
  split; [exact Hp|]. intros H0. destruct Hp as (b & Hb & Hp).
  rewrite H0 in Hb. destruct data as [|b0 rest]; [done|].
  cbn in Hb. injection Hb as ->. by exists b, rest.
Qed.

Lemma parse_accepts_short_header_length_witness :
  exists b0 rest,
    x40 :: repeat x00 19 = b0 :: rest
    /\ Traceroute._parse_icmp_type (x40 :: repeat x00 19)
       = Returned (Some (byte_val b0)).
Proof.
  apply (parse_accepts_short_header_length (x40 :: repeat x00 19));
    [vm_compute; discriminate | vm_compute; discriminate | reflexivity].
Defined.

(** ** network_topologer.py: orchestration *)

(** X7: [NetworkTopologer.run] composes: running a list that is two lists
    joined is running the first and, if that call returned, running the
    second on the same instance; an exception ends it at the first list. *)
Theorem run_app fuel w self ds1 ds2 :
  NetworkTopologer.run fuel w self (ds1 ++ ds2)
  = match NetworkTopologer.run fuel w self ds1 with
    | Some (self', Returned _) => NetworkTopologer.run fuel w self' ds2
    | other => other
    end.
Proof.
  revert self. induction ds1 as [|d ds1 IH]; intros self; [done|].
  cbn [app NetworkTopologer.run].
  destruct (Traceroute.run fuel _ (w d) d) as [[hops|e]|]; [apply IH| |done].
  destruct (is_TracerouteError e); [apply IH | done].
Qed.

(** X8: an exception that is not a [TracerouteError] aborts the batch: the
    call raises it, the destinations after the failing one are not traced,
    and the instance keeps the entries of the destinations before it. *)
Theorem run_aborts_on_foreign_exception fuel w self ds1 d ds2 e :
  (forall x, x ∈ ds1 ->
     is_Some (entry fuel w (NetworkTopologer.timeout self)
                    (NetworkTopologer.port self) x)) ->
  Traceroute.run fuel
    (Traceroute.mk (NetworkTopologer.timeout self) (NetworkTopologer.port self))
    (w d) d = Some (Raised e) ->
  is_TracerouteError e = false ->
  NetworkTopologer.run fuel w self (ds1 ++ d :: ds2)
  = Some (NetworkTopologer.set_results self
            (store_all (fun x => default [] (entry fuel w
                                   (NetworkTopologer.timeout self)
                                   (NetworkTopologer.port self) x))
                       (NetworkTopologer.results self) ds1),
          Raised e).
Proof.
  intros Hall Hd He. rewrite run_app, (run_complete fuel w ds1 self Hall).
  cbn [NetworkTopologer.run NetworkTopologer.set_results
       NetworkTopologer.timeout NetworkTopologer.port].
  by rewrite Hd, He.
Qed.

Lemma run_aborts_on_foreign_exception_witness :
  NetworkTopologer.run 5 faulty_world fresh
    ["10.0.0.3"; "broken.example"; "10.0.0.4"]
  = Some (NetworkTopologer.set_results fresh [("10.0.0.3", three_hops)],
          Raised OSError).
Proof.
  refine (run_aborts_on_foreign_exception 5 faulty_world fresh
            ["10.0.0.3"] "broken.example" ["10.0.0.4"] OSError _ eq_refl eq_refl).
  intros x Hx. apply list_elem_of_In in Hx. destruct Hx as [<-|[]].
  vm_compute. eexists. reflexivity.
Defined.








(** ** network_topologer.py: the derived graphs *)

(** A graph without empty successor sets is determined by its edges. *)
Lemma graph_eq_by_edges (g1 g2 : gmap string (gset string)) :
  no_empty_successors g1 -> no_empty_successors g2 ->
  (forall a b, has_edge g1 a b <-> has_edge g2 a b) ->
  g1 = g2.
Proof.
  intros Hn1 Hn2 He. apply map_eq. intros a.
  assert (Hside : forall (g g' : gmap string (gset string)) s,
            no_empty_successors g ->
            (forall b, has_edge g a b -> has_edge g' a b) ->
            g !! a = Some s -> exists s', g' !! a = Some s' /\ s ⊆ s').
  { intros g g' s Hn Hsub Hs.
    destruct (set_choose_L s (Hn a s Hs)) as [b Hb].
    destruct (Hsub b) as (s' & Hs' & _); [by exists s|].
    exists s'. split; [done|]. intros x Hx.
    destruct (Hsub x) as (s'' & Hs'' & Hx''); [by exists s|]. congruence. }
  destruct (g1 !! a) as [s1|] eqn:H1; destruct (g2 !! a) as [s2|] eqn:H2.
  - destruct (Hside g1 g2 s1 Hn1 (fun b => proj1 (He a b)) H1) as (s & Hs & H12).
    destruct (Hside g2 g1 s2 Hn2 (fun b => proj2 (He a b)) H2) as (s' & Hs' & H21).
    f_equal. set_solver.
  - destruct (Hside g1 g2 s1 Hn1 (fun b => proj1 (He a b)) H1) as (s & Hs & _).
    congruence.
  - destruct (Hside g2 g1 s2 Hn2 (fun b => proj2 (He a b)) H2) as (s & Hs & _).
    congruence.
  - done.
Qed.

Lemma has_edge_derive_adjacency (rs : dict (list hop)) a b :
  has_edge (derive_adjacency rs) a b
  <-> exists d hops, (d, hops) ∈ rs
                     /\ (a, b) ∈ consecutive (present_addresses hops).
Proof.
  unfold derive_adjacency. rewrite has_edge_derive.
  split; [|by left]. intros [H|(succ & Hl & _)]; [done|].
  by rewrite lookup_empty in Hl.
Qed.

(** X11: the graph [build_adjacency] returns does not depend on the order
    in which the destinations sit in the results. *)
Theorem build_adjacency_order_independent self (rs1 rs2 : dict (list hop)) :
  rs1 ≡ₚ rs2 ->
  NetworkTopologer.build_adjacency self (Some rs1)
  = NetworkTopologer.build_adjacency self (Some rs2).
Proof.
  intros Hp. rewrite !build_adjacency_eq. cbn [from_option id]. f_equal.
  apply graph_eq_by_edges.
  - intros a succ. apply derive_adjacency_no_empty.
  - intros a succ. apply derive_adjacency_no_empty.
  - intros a b. rewrite !has_edge_derive_adjacency.
    split; intros (d & hops & Hin & He); exists d, hops;
      (split; [|done]); [by rewrite <- Hp | by rewrite Hp].
Qed.

Lemma build_adjacency_order_independent_witness :
  NetworkTopologer.build_adjacency fresh
    (Some [("10.0.0.3", three_hops); ("nowhere.invalid", [])])
  = NetworkTopologer.build_adjacency fresh
      (Some [("nowhere.invalid", []); ("10.0.0.3", three_hops)]).
Proof.
  apply build_adjacency_order_independent. apply Permutation_swap.
Defined.

Lemma consecutive_nil_iff {A : Type} (l : list A) :
  consecutive l = [] <-> (length l <= 1)%nat.
Proof.
  destruct l as [|x [|y l]]; cbn; split; intros; try done; lia.
Qed.

(** X12: [build_adjacency] returns the empty graph exactly when no hop list
    holds two hops with an address: destinations that failed, timed out
    throughout or answered at a single hop contribute no edge. *)
Theorem build_adjacency_empty_iff self (rs : dict (list hop)) :
  NetworkTopologer.build_adjacency self (Some rs) = Returned ∅
  <-> forall d hops, (d, hops) ∈ rs ->
        (length (present_addresses hops) <= 1)%nat.
Proof.
  rewrite build_adjacency_eq. cbn [from_option id]. split.
  - intros [= Hg] d hops Hin. apply consecutive_nil_iff.
    destruct (consecutive (present_addresses hops)) as [|[a b] ps] eqn:Hc;
      [done|].
    assert (He : has_edge (derive_adjacency rs) a b).
    { apply has_edge_derive_adjacency. exists d, hops. split; [done|].
      rewrite Hc. apply elem_of_cons. by left. }
    destruct He as (succ & Hl & _). by rewrite Hg, lookup_empty in Hl.
  - intros Hall. f_equal. apply graph_eq_by_edges.
    + intros a succ. apply derive_adjacency_no_empty.
    + intros a succ. by rewrite lookup_empty.
    + intros a b. rewrite has_edge_derive_adjacency. split.
      * intros (d & hops & Hin & He).
        apply Hall, consecutive_nil_iff in Hin. rewrite Hin in He.
        by apply elem_of_nil in He.
      * intros (succ & Hl & _). by rewrite lookup_empty in Hl.
Qed.

(** [build_adjacency_with_latency] as a fold of its inner turn, without any
    condition on the round-trip times. *)
Lemma build_adjacency_with_latency_fold self arg :
  NetworkTopologer.build_adjacency_with_latency self arg
  = Returned
      (foldl (fun m '(_, hops) => foldl latency_turn m (consecutive (timed_hops hops)))
             ∅ (default (NetworkTopologer.results self) arg)).
Proof.
  unfold NetworkTopologer.build_adjacency_with_latency.
  apply for_each_returned. intros m [d hops] _.
  apply (for_each_consecutive (omap NetworkTopologer.ip_rtt hops)).
  intros s i [a ra] [b rb] Ha Hb.
  rewrite (getitem_lookup _ _ _ Ha). cbn [mbind outcome_bind].
  replace (Z.of_nat i + 1) with (Z.of_nat (S i)) by lia.
  rewrite (getitem_lookup _ _ _ Hb). cbn [mbind outcome_bind].
  unfold latency_turn. cbv zeta. by destruct (_ && _).
Qed.

Lemma latency_turn_positive m p :
  samples_positive m -> samples_positive (latency_turn m p).
Proof.
  intros Hm. destruct p as [[a ra] [b rb]]. unfold latency_turn. cbv zeta.
  set (delta := if truthy rb && truthy ra then (rb - ra)%float else rb).
  destruct (truthy delta && (0 <? delta)%float) eqn:Hc; [|done].
  apply andb_true_iff in Hc as [_ Hpos].
  intros e samples. unfold NetworkTopologer.add_sample.
  destruct (decide ((a, b) = e)) as [<-|Hne].
  - rewrite lookup_insert_eq. intros [= <-]. split.
    + by destruct (default [] (m !! (a, b))).
    + apply Forall_app. split; [|by apply Forall_singleton].
      destruct (m !! (a, b)) as [old|] eqn:Hold; [|by apply Forall_nil].
      by apply (Hm _ _ Hold).
  - rewrite lookup_insert_ne by done. apply Hm.
Qed.

(** X13: [build_adjacency_with_latency] never raises, whatever the
    round-trip times are, and in the mapping it returns every sample list is
    non-empty and holds strictly positive samples only. *)
Theorem latency_samples_positive self arg :
  exists m,
    NetworkTopologer.build_adjacency_with_latency self arg = Returned m
    /\ samples_positive m.
Proof.
  eexists. split; [apply build_adjacency_with_latency_fold|].
  generalize (default (NetworkTopologer.results self) arg). intros rs.
  assert (Hinner : forall ps m, samples_positive m ->
            samples_positive (foldl latency_turn m ps)).
  { induction ps as [|p ps IH]; intros m Hm; cbn [foldl]; [done|].
    by apply IH, latency_turn_positive. }
  assert (Houter : forall m, samples_positive m ->
            samples_positive
              (foldl (fun m '(_, hops) =>
                        foldl latency_turn m (consecutive (timed_hops hops)))
                     m rs)).
  { induction rs as [|[d hops] rs IH]; intros m Hm; cbn [foldl]; [done|].
    by apply IH, Hinner. }
  apply Houter. intros e samples. by rewrite lookup_empty.
Qed.

Lemma consecutive_fmap {A B : Type} (f : A -> B) (l : list A) :
  consecutive (f <$> l) = prod_map f f <$> consecutive l.
Proof.
  unfold consecutive. destruct l as [|x l]; [done|].
  cbn [fmap list_fmap tail]. revert x.
  induction l as [|y l IH]; intros x; [done|].
  cbn [fmap list_fmap zip zip_with]. f_equal. apply IH.
Qed.

Lemma timed_hops_addresses (hops : list hop) :
  Forall hop_wf hops -> (timed_hops hops).*1 = present_addresses hops.
Proof.
  unfold timed_hops, present_addresses.
  induction 1 as [|[[ttl ip] rtt] hops Hwf _ IH]; [done|].
  unfold hop_wf in Hwf. cbn in Hwf. cbn [omap list_omap].
  unfold NetworkTopologer.ip_rtt at 1. cbn [hop_ip hop_rtt fst snd].
  destruct ip as [ip|], rtt as [rtt|]; cbn [fmap list_fmap fst].
  - by rewrite IH.
  - destruct Hwf as [_ Hwf]. by specialize (Hwf eq_refl).
  - destruct Hwf as [Hwf _]. by specialize (Hwf eq_refl).
  - exact IH.
Qed.

Lemma latency_turn_keys ps : forall m e,
  is_Some (foldl latency_turn m ps !! e) ->
  e ∈ prod_map fst fst <$> ps \/ is_Some (m !! e).
Proof.
  induction ps as [|[[a ra] [b rb]] ps IH]; intros m e He; cbn [foldl] in He;
    [by right|].
  apply IH in He as [He|He]; [left; by apply elem_of_cons; right|].
  unfold latency_turn in He. cbv zeta in He.
  destruct (_ && (0 <? _)%float); [|by right].
  unfold NetworkTopologer.add_sample in He.
  destruct (decide ((a, b) = e)) as [<-|Hne].
  - left. apply elem_of_cons. by left.
  - rewrite lookup_insert_ne in He by done. by right.
Qed.

Lemma latency_keys (rs : dict (list hop)) : forall m e,
  is_Some (foldl (fun m '(_, hops) =>
                    foldl latency_turn m (consecutive (timed_hops hops)))
                 m rs !! e) ->
  (exists d hops, (d, hops) ∈ rs
                  /\ e ∈ consecutive ((timed_hops hops).*1))
  \/ is_Some (m !! e).
Proof.
  induction rs as [|[d0 hops0] rs IH]; intros m e He; cbn [foldl] in He;
    [by right|].
  apply IH in He as [(d & hops & Hin & He)|He].
  - left. exists d, hops. split; [by apply elem_of_cons; right | done].
  - apply latency_turn_keys in He as [He|He]; [|by right].
    left. exists d0, hops0. split; [by apply elem_of_cons; left|].
    by rewrite consecutive_fmap.
Qed.

(** X14: when every hop with an address also has a round-trip time and
    conversely, as in the hop lists [Traceroute.run] returns, every pair
    that has latency samples in [build_adjacency_with_latency] is an edge of
    the graph [build_adjacency] returns for the same results. *)
Theorem latency_edges_are_adjacency_edges self (rs : dict (list hop)) m g a b :
  (forall d hops, (d, hops) ∈ rs -> Forall hop_wf hops) ->
  NetworkTopologer.build_adjacency_with_latency self (Some rs) = Returned m ->
  NetworkTopologer.build_adjacency self (Some rs) = Returned g ->
  is_Some (m !! (a, b)) ->
  has_edge g a b.
Proof.
  intros Hwf Hm Hg Hab.
  rewrite build_adjacency_with_latency_fold in Hm. injection Hm as <-.
  rewrite build_adjacency_eq in Hg. injection Hg as <-.
  cbn [from_option id] in *.
  apply latency_keys in Hab as [(d & hops & Hin & He)|Hab].
  - apply has_edge_derive_adjacency. exists d, hops. split; [done|].
    by rewrite <- (timed_hops_addresses hops (Hwf d hops Hin)).
  - rewrite lookup_empty in Hab. by destruct Hab.
Qed.

Lemma latency_edges_are_adjacency_edges_witness :
  has_edge (derive_adjacency [("example.com", example_hops)])
           "10.0.0.1" "10.0.0.2".
Proof.
  assert (Hwf : forall d hops h,
            (d, hops) ∈ [("example.com", example_hops)] -> h ∈ hops ->
            hop_wf h /\ rtt_nonneg h).
  { intros d hops h Hin Hh. apply list_elem_of_singleton in Hin.
    injection Hin as _ ->. apply list_elem_of_In in Hh.
    destruct Hh as [<-|[<-|[<-|[]]]]; (split; [by split | reflexivity]). }
  apply (latency_edges_are_adjacency_edges fresh [("example.com", example_hops)]
           (<[("10.0.0.2", "10.0.0.3") := [10%float]]>
              {[("10.0.0.1", "10.0.0.2") := [10%float]]})).
  - intros d hops Hin. apply Forall_forall. intros h Hh.
    by apply (Hwf d hops h).
  - rewrite build_adjacency_with_latency_eq
      by (intros d hops h Hin Hh; by apply (Hwf d hops h)).
    apply (f_equal Returned). by apply latency_example.
  - apply build_adjacency_eq.
  - rewrite lookup_insert_ne by done. rewrite lookup_singleton_eq. by eexists.
Defined.

(** Without that condition the two graphs can disagree: a hop with an
    address but no round-trip time is an adjacency node that the latency
    graph skips over. *)
Lemma latency_edge_over_untimed_hop :
  let rs := [("example.com", [(1, Some "10.0.0.1", Some 10%float);
                              (2, Some "10.0.0.2", None);
                              (3, Some "10.0.0.3", Some 30%float)])] in
  NetworkTopologer.build_adjacency_with_latency fresh (Some rs)
  = Returned {[("10.0.0.1", "10.0.0.3") := [20%float]]}
  /\ ~ has_edge (derive_adjacency rs) "10.0.0.1" "10.0.0.3".
Proof.
  intros rs. split.
  - rewrite build_adjacency_with_latency_fold. apply (f_equal Returned).
    subst rs. unfold timed_hops, consecutive, latency_turn.
    cbn [from_option id foldl omap list_omap NetworkTopologer.ip_rtt hop_ip
         hop_rtt fst snd tail zip zip_with].
    change (truthy 30 && truthy 10) with true. cbv iota.
    change (30 - 10)%float with 20%float.
    change (truthy 20 && (0 <? 20)%float) with true. cbv iota.
    unfold NetworkTopologer.add_sample.
    by rewrite lookup_empty, insert_empty.
  - rewrite has_edge_derive_adjacency. intros (d & hops & Hin & He).
    apply list_elem_of_singleton in Hin. injection Hin as _ ->.
    apply list_elem_of_In in He. cbn in He.
    destruct He as [[=]|[[=]|[]]].
Qed.

(** ** network_topologer.py: the JSON view *)

Lemma str_le_total : Total str_le.
Proof. intros a b. apply String.leb_total. Qed.

Lemma sorted_spec (v : gset string) :
  Sorted str_le (sorted (elements v))
  /\ NoDup (sorted (elements v))
  /\ list_to_set (sorted (elements v)) = v.
Proof.
  unfold sorted. split; [|split].
  - apply (@Sorted_merge_sort _ str_le _ str_le_total).
  - rewrite merge_sort_Permutation. apply NoDup_elements.
  - apply set_eq. intros x.
    by rewrite elem_of_list_to_set, merge_sort_Permutation, elem_of_elements.
Qed.

(** X15: [topology_dict] never raises and loses nothing of the graph: it has
    the keys of [build_adjacency], and the list under each key is in
    ascending order, without repetition, and holds exactly the successors
    of that key. *)
Theorem topology_dict_round_trip self arg :
  exists adj t,
    NetworkTopologer.build_adjacency self arg = Returned adj
    /\ topology_dict self arg = Returned t
    /\ dom t = dom adj
    /\ (forall k l, t !! k = Some l ->
          Sorted str_le l /\ NoDup l /\ adj !! k = Some (list_to_set l))
    /\ (forall k succ, adj !! k = Some succ ->
          exists l, t !! k = Some l /\ (forall x, x ∈ l <-> x ∈ succ)).
Proof.
  unfold topology_dict. rewrite build_adjacency_eq. cbn [mbind outcome_bind].
  do 2 eexists. split; [reflexivity|]. split; [reflexivity|].
  split; [apply dom_fmap_L|]. split.
  - intros k l. rewrite lookup_fmap.
    destruct (derive_adjacency _ !! k) as [v|]; [|done].
    intros [= <-]. destruct (sorted_spec v) as (Hs & Hn & Hv).
    by rewrite Hv.
  - intros k succ Hk. rewrite lookup_fmap, Hk. eexists. split; [reflexivity|].
    intros x. destruct (sorted_spec succ) as (_ & _ & Hv).
    by rewrite <- Hv at 2; rewrite elem_of_list_to_set.
Qed.

(** ** visualization.py *)

Lemma elem_of_adjacency_pairs (adj : gmap string (gset string)) a b :
  (a, b) ∈ adjacency_pairs adj <-> has_edge adj a b.
Proof.
  unfold adjacency_pairs, has_edge. rewrite list_elem_of_bind. split.
  - intros ([src dsts] & Hin & Hitem). apply elem_of_map_to_list in Hitem.
    apply list_elem_of_bind in Hin as (dst & Hin & Hdst).
    apply list_elem_of_singleton in Hin. injection Hin as -> ->.
    exists dsts. split; [done|]. by apply elem_of_elements.
  - intros (succ & Hl & Hb). exists (a, succ). split.
    + apply list_elem_of_bind. exists b. split; [by apply list_elem_of_singleton|].
      by apply elem_of_elements.
    + by apply elem_of_map_to_list.
Qed.

Lemma build_graph_fold (ps : list (string * string)) : forall G,
  DiGraph.edges (foldl (fun G '(src, dst) => DiGraph.add_edge G src dst) G ps)
  = list_to_set ps ∪ DiGraph.edges G
  /\ DiGraph.nodes (foldl (fun G '(src, dst) => DiGraph.add_edge G src dst) G ps)
     = list_to_set ps.*1 ∪ list_to_set ps.*2 ∪ DiGraph.nodes G.
Proof.
  induction ps as [|[u v] ps IH]; intros G; cbn [foldl].
  - cbn. split; set_solver.
  - destruct (IH (DiGraph.add_edge G u v)) as [-> ->].
    cbn [DiGraph.add_edge DiGraph.edges DiGraph.nodes fmap list_fmap
         list_to_set fst snd]. split; set_solver.
Qed.

(** X16: the graph [get_graph_stats] and [plot_topology] build from an
    adjacency mapping has an edge from [a] to [b] exactly when [b] is in the
    set under [a], and its nodes are the addresses with an outgoing or an
    incoming edge: a key whose set is empty is not a node. *)
Theorem build_graph_spec (adj : gmap string (gset string)) :
  (forall a b, (a, b) ∈ DiGraph.edges (build_graph adj) <-> has_edge adj a b)
  /\ (forall n, n ∈ DiGraph.nodes (build_graph adj)
                <-> (exists b, has_edge adj n b) \/ (exists a, has_edge adj a n)).
Proof.
  unfold build_graph.
  destruct (build_graph_fold (adjacency_pairs adj) DiGraph.empty) as [-> ->].
  cbn [DiGraph.empty DiGraph.edges DiGraph.nodes]. split.
  - intros a b. rewrite elem_of_union, elem_of_list_to_set,
      elem_of_adjacency_pairs. set_solver.
  - intros n. rewrite !elem_of_union, !elem_of_list_to_set, !list_elem_of_fmap.
    split.
    + intros [[([a b] & -> & Hin)|([a b] & -> & Hin)]|Hn]; [| |set_solver].
      * left. exists b. by apply elem_of_adjacency_pairs.
      * right. exists a. by apply elem_of_adjacency_pairs.
    + intros [[b Hb]|[a Ha]]; apply elem_of_adjacency_pairs in Hb || 
        apply elem_of_adjacency_pairs in Ha.
      * left. left. by exists (n, b).
      * left. right. by exists (a, n).
Qed.

Lemma size_list_to_set_le (l : list string) :
  (size (list_to_set l : gset string) <= length l)%nat.
Proof.
  induction l as [|x l IH]; cbn [list_to_set length].
  - by rewrite size_empty.
  - rewrite size_union_alt, size_singleton.
    assert (Hsub : list_to_set l ∖ {[x]} ⊆ (list_to_set l : gset string))
      by set_solver.
    apply subseteq_size in Hsub. lia.
Qed.

(** A set covered by the image of another set is no larger. *)
Lemma size_image_le (X : gset (string * string)) (Y : gset string)
    (f : string * string -> string) :
  (forall y, y ∈ Y -> exists x, x ∈ X /\ f x = y) ->
  (size Y <= size X)%nat.
Proof.
  intros Hcov.
  transitivity (size (list_to_set (f <$> elements X) : gset string)).
  - apply subseteq_size. intros y Hy. destruct (Hcov y Hy) as (x & Hx & <-).
    apply elem_of_list_to_set, list_elem_of_fmap. exists x.
    split; [done | by apply elem_of_elements].
  - etransitivity; [apply size_list_to_set_le|]. by rewrite length_fmap.
Qed.

Lemma elem_of_destinations (adj : gmap string (gset string)) x :
  x ∈ (list_to_set (dsts ← (map_to_list adj).*2; elements dsts) : gset string)
  <-> exists a, has_edge adj a x.
Proof.
  rewrite elem_of_list_to_set, list_elem_of_bind. split.
  - intros (dsts & Hx & Hd). apply list_elem_of_fmap in Hd as ([a v] & -> & Hin).
    apply elem_of_map_to_list in Hin. exists a, v.
    split; [done | by apply elem_of_elements].
  - intros (a & succ & Hl & Hx). exists succ.
    split; [by apply elem_of_elements|].
    apply list_elem_of_fmap. exists (a, succ).
    split; [done | by apply elem_of_map_to_list].
Qed.

Lemma graph_stats_sets (adj : gmap string (gset string)) :
  let G := build_graph adj in
  let D : gset string :=
    list_to_set (dsts ← (map_to_list adj).*2; elements dsts) in
  D ⊆ DiGraph.nodes G
  /\ DiGraph.nodes G ⊆ dom adj ∪ D
  /\ (size D <= size (DiGraph.edges G))%nat
  /\ (no_empty_successors adj ->
      dom adj ⊆ DiGraph.nodes G
      /\ (size (dom adj) <= size (DiGraph.edges G))%nat).
Proof.
  intros G D. destruct (build_graph_spec adj) as [He Hn]. fold G in He, Hn.
  split; [|split; [|split]].
  - intros x Hx. apply Hn. right. by apply elem_of_destinations.
  - intros x Hx. apply Hn in Hx as [[b (succ & Hl & _)]|Hx].
    + apply elem_of_union. left. apply elem_of_dom. by exists succ.
    + apply elem_of_union. right. by apply elem_of_destinations.
  - apply (size_image_le _ _ snd). intros y Hy.
    apply elem_of_destinations in Hy as [a Ha].
    exists (a, y). split; [by apply He | done].
  - intros Hne.
    assert (Hout : forall a, a ∈ dom adj -> exists b, has_edge adj a b).
    { intros a Ha. apply elem_of_dom in Ha as [succ Hl].
      destruct (set_choose_L succ (Hne a succ Hl)) as [b Hb].
      exists b, succ. done. }
    split.
    + intros a Ha. apply Hn. left. by apply Hout.
    + apply (size_image_le _ _ fst). intros a Ha.
      destruct (Hout a Ha) as [b Hb]. exists (a, b).
      split; [by apply He | done].
Qed.

(** X17: the counts [get_graph_stats] returns are consistent for every
    adjacency mapping: destinations <= nodes <= sources + destinations and
    destinations <= edges; and when no key has an empty set, also
    sources <= nodes and sources <= edges. *)
Theorem graph_stats_bounds (adj : gmap string (gset string)) :
  let s := get_graph_stats adj in
  0 <= stat_destinations s <= stat_nodes s
  /\ stat_nodes s <= stat_sources s + stat_destinations s
  /\ stat_destinations s <= stat_edges s
  /\ (no_empty_successors adj ->
      stat_sources s <= stat_nodes s /\ stat_sources s <= stat_edges s).
Proof.
  destruct (graph_stats_sets adj) as (HD & HN & HDE & Hne).
  cbv zeta in *. unfold get_graph_stats.
  cbn [stat_nodes stat_edges stat_sources stat_destinations].
  unfold DiGraph.number_of_nodes, DiGraph.number_of_edges.
  rewrite <- (size_dom (D := gset string) adj).
  apply subseteq_size in HD. apply subseteq_size in HN.
  rewrite size_union_alt in HN.
  match type of HN with
  | (_ <= _ + size (?Y ∖ ?X))%nat =>
      assert (Hd : (size (Y ∖ X) <= size Y)%nat)
        by (apply subseteq_size; set_solver)
  end.
  split; [lia|]. split; [lia|]. split; [lia|].
  intros H. destruct (Hne H) as [HK HKE]. apply subseteq_size in HK. lia.
Qed.

Lemma graph_stats_bounds_witness :
  stat_sources (get_graph_stats one_edge_graph)
  <= stat_nodes (get_graph_stats one_edge_graph)
  /\ stat_sources (get_graph_stats one_edge_graph)
     <= stat_edges (get_graph_stats one_edge_graph).
Proof.
  pose proof (graph_stats_bounds one_edge_graph) as H. cbv zeta in H.
  destruct H as (_ & _ & _ & H). apply H.
  intros a succ Hl. unfold one_edge_graph in Hl.
  apply lookup_singleton_Some in Hl as [_ <-].
  apply non_empty_singleton_L.
Defined.

(** X18: for the graph [build_adjacency] returns, the statistics satisfy
    sources <= nodes and sources <= edges, and a non-empty graph, the case
    in which the caller prints them, has at least one node, one edge and
    one source. *)
Theorem graph_stats_of_build_adjacency self arg g :
  NetworkTopologer.build_adjacency self arg = Returned g ->
  let s := get_graph_stats g in
  stat_sources s <= stat_nodes s
  /\ stat_sources s <= stat_edges s
  /\ (g <> ∅ -> 1 <= stat_sources s /\ 1 <= stat_nodes s /\ 1 <= stat_edges s).
Proof.
  rewrite build_adjacency_eq. intros [= <-]. intros s.
  destruct (graph_stats_bounds
              (derive_adjacency (default (NetworkTopologer.results self) arg)))
    as (_ & _ & _ & H).
  fold s in H. destruct H as [H1 H2].
  { intros a succ. apply derive_adjacency_no_empty. }
  split; [done|]. split; [done|]. intros Hne.
  assert (1 <= stat_sources s); [|lia].
  subst s. unfold get_graph_stats. cbn [stat_sources].
  apply map_size_non_empty_iff in Hne. lia.
Qed.

Lemma graph_stats_of_build_adjacency_witness :
  let g := derive_adjacency [("example.com", example_hops)] in
  stat_sources (get_graph_stats g) <= stat_nodes (get_graph_stats g)
  /\ stat_sources (get_graph_stats g) <= stat_edges (get_graph_stats g).
Proof.
  intros g.
  pose proof (graph_stats_of_build_adjacency fresh
                (Some [("example.com", example_hops)]) g
                (build_adjacency_eq fresh _)) as H.
  cbv zeta in H. destruct H as (H1 & H2 & _). by split.
Defined.

(** ** __main__.py: random destinations *)

Lemma randint_range a b raw : a <= b -> a <= randint a b raw <= b.
Proof.
  intros Hab. unfold randint.
  pose proof (Z.mod_pos_bound raw (b - a + 1) ltac:(lia)). lia.
Qed.

Lemma not_reserved_public r1 r2 r3 r4 :
  is_reserved (randint 1 223 r1) (randint 0 255 r2) = false ->
  public_address (format_ip (randint 1 223 r1) (randint 0 255 r2)
                            (randint 0 255 r3) (randint 1 254 r4)).
Proof.
  intros Hres. unfold is_reserved in Hres.
  exists (randint 1 223 r1), (randint 0 255 r2), (randint 0 255 r3),
         (randint 1 254 r4).
  split; [done|].
  pose proof (randint_range 1 223 r1 ltac:(lia)).
  pose proof (randint_range 0 255 r2 ltac:(lia)).
  pose proof (randint_range 0 255 r3 ltac:(lia)).
  pose proof (randint_range 1 254 r4 ltac:(lia)).
  repeat (apply orb_false_iff in Hres as [Hres ?]).
  repeat match goal with
         | H : (_ && _) = false |- _ => apply andb_false_iff in H
         end.
  repeat split; try lia.
Qed.

Lemma generate_loop_spec count draws : forall acc ips,
  Forall public_address acc ->
  generate_loop count acc draws = Some ips ->
  Forall public_address ips /\ len ips = Z.max (len acc) count.
Proof.
  induction draws as [draws IH] using (induction_ltof1 _ length).
  unfold ltof in IH. intros acc ips Hacc Hrun.
  destruct draws as [|r1 draws]; cbn [generate_loop] in Hrun.
  - destruct (Z.ltb_spec (len acc) count); [done|].
    injection Hrun as <-. split; [done | lia].
  - destruct (Z.ltb_spec (len acc) count) as [Hlt|Hge];
      [|injection Hrun as <-; split; [done | lia]].
    destruct draws as [|r2 [|r3 [|r4 rest]]]; try done.
    destruct (is_reserved _ _) eqn:Hres.
    + apply IH in Hrun; [done | cbn; lia | done].
    + apply IH in Hrun; [|cbn; lia|].
      * destruct Hrun as [Hall Hlen]. split; [done|].
        rewrite Hlen. unfold len in *. rewrite length_app. cbn [length]. lia.
      * apply Forall_app. split; [done|]. apply Forall_singleton.
        by apply not_reserved_public.
Qed.

(** X19: when [generate_random_public_ips] returns, it returns exactly
    [count] addresses (none for a count of zero or less), each a dotted quad
    with first octet in 1..223, last octet in 1..254, and outside 10/8,
    127/8, 172.16/12, 192.168/16 and 169.254/16. *)
Theorem generate_random_public_ips_spec count draws ips :
  generate_random_public_ips count draws = Some ips ->
  Forall public_address ips /\ len ips = Z.max 0 count.
Proof.
  intros Hrun. by apply (generate_loop_spec count draws [] ips).
Qed.

Lemma generate_random_public_ips_spec_witness :
  generate_random_public_ips 2 [9; 0; 0; 0; 7; 1; 2; 3; 191; 167; 5; 6;
                                 171; 15; 0; 253]
  = Some ["8.1.2.4"; "192.167.5.7"]
  /\ Forall public_address ["8.1.2.4"; "192.167.5.7"].
Proof.
  assert (Hrun : generate_random_public_ips 2
                   [9; 0; 0; 0; 7; 1; 2; 3; 191; 167; 5; 6; 171; 15; 0; 253]
                 = Some ["8.1.2.4"; "192.167.5.7"]) by (vm_compute; reflexivity).
  split; [exact Hrun|].
  apply (generate_random_public_ips_spec _ _ _ Hrun).
Defined.

(** ** network_topologer.py: the samples of each edge *)

Lemma timed_hops_subsequence (hops : list hop) :
  timed_hops hops = timed_subsequence hops.
Proof.
  unfold timed_hops.
  induction hops as [|[[ttl [ip|]] [rtt|]] hops IH];
    cbn [omap list_omap timed_subsequence]; try done.
  unfold NetworkTopologer.ip_rtt at 1. cbn [hop_ip hop_rtt fst snd].
  by rewrite IH.
Qed.

(** The delta the code computes is the guarded difference. *)
Lemma code_delta_guarded (ra rb : float) :
  (if truthy rb && truthy ra then (rb - ra)%float else rb)
  = guarded_difference ra rb.
Proof.
  unfold truthy, guarded_difference.
  by destruct (rb =? 0)%float, (ra =? 0)%float.
Qed.

(** What one turn of the inner loop adds under each pair. *)
Lemma latency_turn_samples m (p : (string * float) * (string * float)) e :
  default [] (latency_turn m p !! e)
  = default [] (m !! e)
    ++ (if decide ((p.1.1, p.2.1) = e) then
          if (0 <? guarded_difference p.1.2 p.2.2)%float
          then [guarded_difference p.1.2 p.2.2] else []
        else []).
Proof.
  destruct p as [[a ra] [b rb]]. unfold latency_turn. cbv zeta.
  cbn [fst snd]. rewrite code_delta_guarded, truthy_and_positive.
  destruct (0 <? guarded_difference ra rb)%float.
  - unfold NetworkTopologer.add_sample.
    destruct (decide ((a, b) = e)) as [<-|Hne].
    + by rewrite lookup_insert_eq.
    + rewrite lookup_insert_ne by done. by rewrite app_nil_r.
  - destruct (decide ((a, b) = e)); by rewrite app_nil_r.
Qed.

Lemma latency_fold_samples ps : forall m e,
  default [] (foldl latency_turn m ps !! e)
  = default [] (m !! e)
    ++ (p ← ps;
        if decide ((p.1.1, p.2.1) = e) then
          if (0 <? guarded_difference p.1.2 p.2.2)%float
          then [guarded_difference p.1.2 p.2.2] else []
        else []).
Proof.
  induction ps as [|p ps IH]; intros m e; cbn [foldl mbind list_bind].
  - by rewrite app_nil_r.
  - by rewrite IH, latency_turn_samples, app_assoc.
Qed.

Lemma latency_results_samples (rs : dict (list hop)) : forall m e,
  default []
    (foldl (fun m '(_, hops) =>
              foldl latency_turn m (consecutive (timed_hops hops))) m rs !! e)
  = default [] (m !! e) ++ edge_samples guarded_difference e rs.
Proof.
  unfold edge_samples.
  induction rs as [|[d hops] rs IH]; intros m e; cbn [foldl mbind list_bind].
  - by rewrite app_nil_r.
  - rewrite IH, latency_fold_samples, timed_hops_subsequence, <- app_assoc.
    done.
Qed.

Lemma latency_results_positive (rs : dict (list hop)) : forall m,
  samples_positive m ->
  samples_positive
    (foldl (fun m '(_, hops) =>
              foldl latency_turn m (consecutive (timed_hops hops))) m rs).
Proof.
  assert (Hinner : forall ps m, samples_positive m ->
            samples_positive (foldl latency_turn m ps)).
  { induction ps as [|p ps IH]; intros m Hm; cbn [foldl]; [done|].
    by apply IH, latency_turn_positive. }
  induction rs as [|[d hops] rs IH]; intros m Hm; cbn [foldl]; [done|].
  by apply IH, Hinner.
Qed.

(** The mapping the code returns holds the samples of the guarded rule. *)
Lemma latency_holds_guarded self (rs : dict (list hop)) :
  exists m,
    NetworkTopologer.build_adjacency_with_latency self (Some rs) = Returned m
    /\ holds_samples m guarded_difference rs.
Proof.
  eexists. split; [apply build_adjacency_with_latency_fold|].
  cbn [from_option id]. intros e.
  pose proof (latency_results_samples rs ∅ e) as Hs.
  pose proof (latency_results_positive rs ∅) as Hp.
  rewrite lookup_empty in Hs. cbn [from_option id app] in Hs.
  rewrite <- Hs.
  destruct (foldl _ ∅ rs !! e) as [l|] eqn:Hl; cbn [from_option id]; [|done].
  assert (Hempty : samples_positive ∅)
    by (intros e' l'; by rewrite lookup_empty).
  destruct (Hp Hempty e l Hl) as [Hne _].
  by destruct l.
Qed.

(** For a current time that is not negative the two rules keep the same
    sample. *)
Lemma guarded_difference_agrees (ra rb : float) :
  (0 <=? ra)%float = true ->
  (if (0 <? guarded_difference ra rb)%float
   then [guarded_difference ra rb] else [])
  = (if (0 <? rtt_difference ra rb)%float then [rtt_difference ra rb] else []).
Proof.
  intros Hra. unfold guarded_difference, rtt_difference.
  destruct (truthy rb) eqn:Hb.
  - assert (Hz : (rb =? 0)%float = false)
      by (unfold truthy in Hb; apply negb_true_iff in Hb; exact Hb).
    rewrite Hz. cbn [orb].
    destruct (ra =? 0)%float eqn:Ha; [|done].
    assert (Hfa : truthy ra = false) by (unfold truthy; by rewrite Ha).
    destruct (falsy_zero ra Hfa) as [s Hs].
    by rewrite (sub_zero_r rb ra s Hs Hb).
  - assert (Hz : (rb =? 0)%float = true)
      by (unfold truthy in Hb; apply negb_false_iff in Hb; exact Hb).
    rewrite Hz. cbn [orb].
    destruct (falsy_zero rb Hb) as [s Hs].
    rewrite (zero_sub_nonneg rb ra s Hs Hra).
    destruct (0 <? rb)%float eqn:Hp; [|done].
    apply positive_truthy in Hp. congruence.
Qed.

Lemma list_bind_ext_in {A B : Type} (f g : A -> list B) (l : list A) :
  (forall x, x ∈ l -> f x = g x) -> l ≫= f = l ≫= g.
Proof.
  induction l as [|x l IH]; intros H; cbn [mbind list_bind]; [done|].
  rewrite (H x) by apply list_elem_of_here.
  f_equal. apply IH. intros y Hy. apply H. by apply list_elem_of_further.
Qed.

Lemma edge_samples_agree (rs : dict (list hop)) e :
  (forall d hops h, (d, hops) ∈ rs -> h ∈ hops -> rtt_nonneg h) ->
  edge_samples guarded_difference e rs = edge_samples rtt_difference e rs.
Proof.
  intros Hnn. unfold edge_samples.
  apply list_bind_ext_in. intros [d hops] Hin. cbn [snd].
  unfold path_samples. apply list_bind_ext_in.
  intros [[a ra] [b rb]] Hp. cbn [fst snd].
  destruct (decide ((a, b) = e)); [|done].
  apply guarded_difference_agrees. apply elem_of_zip_l in Hp.
  rewrite <- timed_hops_subsequence in Hp.
  eapply timed_hops_nonneg; [|exact Hp]. intros h Hh. by eapply Hnn.
Qed.

(** C2 fails on the code as stated: from a hop at -5.0 ms to a hop at 0.0 ms
    the difference is 5.0, which the claim appends under the pair, but the
    code takes the delta to be 0.0 and returns the empty mapping. *)
Lemma latency_claim_fails_on_negative_rtt :
  NetworkTopologer.build_adjacency_with_latency fresh
    (Some negative_rtt_results) = Returned ∅
  /\ edge_samples rtt_difference ("10.0.0.1", "10.0.0.2") negative_rtt_results
     = [5%float]
  /\ ~ holds_samples ∅ rtt_difference negative_rtt_results.
Proof.
  split; [exact (proj1 latency_negative_rtt)|].
  assert (Hs : edge_samples rtt_difference ("10.0.0.1", "10.0.0.2")
                 negative_rtt_results = [5%float]) by (vm_compute; reflexivity).
  split; [exact Hs|]. intros H.
  specialize (H ("10.0.0.1", "10.0.0.2")). rewrite Hs, lookup_empty in H.
  discriminate.
Qed.

(** C2 as amended: for every result set, [build_adjacency_with_latency]
    returns the mapping that holds, under each pair
    [(current.address, next.address)], the samples of the consecutive hops
    that have both an address and a round-trip time, appended in order
    exactly when [delta > 0], where [delta = next.rtt - current.rtt] except
    that [delta = next.rtt] when either time is zero; a pair without
    samples has no key. When no round-trip time is negative, as in the data
    model, [delta] is [next.rtt - current.rtt] throughout. On
    [(1,A,10.0), (2,B,20.0), (3,D,30.0)] the result is
    {(A,B): [10.0], (B,D): [10.0]}. *)
Theorem edge_latency_samples self (rs : dict (list hop)) :
  exists m,
    NetworkTopologer.build_adjacency_with_latency self (Some rs) = Returned m
    /\ holds_samples m guarded_difference rs
    /\ ((forall d hops h, (d, hops) ∈ rs -> h ∈ hops -> rtt_nonneg h) ->
        holds_samples m rtt_difference rs)
    /\ (forall d A B D, (A, B) <> (B, D) ->
          NetworkTopologer.build_adjacency_with_latency self
            (Some [(d, [(1, Some A, Some 10%float); (2, Some B, Some 20%float);
                        (3, Some D, Some 30%float)])])
          = Returned (<[(B, D) := [10%float]]> {[(A, B) := [10%float]]})).
Proof.
  destruct (latency_holds_guarded self rs) as (m & Hm & Hg).
  exists m. split; [done|]. split; [done|]. split.
  - intros Hnn e. rewrite <- (edge_samples_agree rs e Hnn). apply Hg.
  - intros d A B D Hne. rewrite build_adjacency_with_latency_eq.
    + apply (f_equal Returned). by apply latency_example.
    + cbn [from_option id]. intros d' hops h Hin Hh.
      apply list_elem_of_singleton in Hin. injection Hin as _ ->.
      apply list_elem_of_In in Hh.
      destruct Hh as [<-|[<-|[<-|[]]]]; reflexivity.
Qed.

Lemma edge_latency_samples_witness :
  exists m,
    NetworkTopologer.build_adjacency_with_latency fresh
      (Some [("example.com", example_hops)]) = Returned m
    /\ holds_samples m rtt_difference [("example.com", example_hops)]
    /\ NetworkTopologer.build_adjacency_with_latency fresh
         (Some [("example.com", example_hops)])
       = Returned (<[("10.0.0.2", "10.0.0.3") := [10%float]]>
                     {[("10.0.0.1", "10.0.0.2") := [10%float]]}).
Proof.
  destruct (edge_latency_samples fresh [("example.com", example_hops)])
    as (m & Hm & _ & Hd & Hex).
  exists m. split; [exact Hm|]. split.
  - apply Hd. intros d hops h Hin Hh.
    apply list_elem_of_singleton in Hin. injection Hin as _ ->.
    apply list_elem_of_In in Hh.
    destruct Hh as [<-|[<-|[<-|[]]]]; reflexivity.
  - apply (Hex "example.com" "10.0.0.1" "10.0.0.2" "10.0.0.3"). discriminate.
Defined.
